(** * The plan, apply, state and workspace tools of [pkg/tools/tfe]

    A shallow embedding of the Terraform MCP server's [get_plan_details]
    tool: the action classifier ([summarizeActions], [countActions],
    [actionSymbol]), the reason table ([formatActionReason]), the value
    formatter ([formatValue]), the tree differ ([writeDiff], [mergeKeys],
    [sortStrings], [valuesEqual]), the per-record renderer
    ([buildAttributeDiff], [writeMapValues], [writeResourceChange]), the two
    responses ([buildFormattedPlanResponse], [buildPlanMetadataResponse]) and
    the handler; and of the handlers of [get_apply_details],
    [get_current_state] (with [formatOutputValue]) and [create_workspace].

    Conventions.
    - A Go [string] is a byte sequence: Rocq's [string]; [len] counts bytes.
    - A Go [int] is a 64-bit integer: [Z] with the wrap-around of [int_add].
    - A [*strings.Builder] is threaded explicitly: a function that writes to
      [sb] takes the text written so far and returns the extended text.
    - A [map[string]interface{}] is the list of its entries in the order in
      which [range] yields them (its native iteration order); a Go map has
      pairwise distinct keys.
    - The functions of Go's standard library that the code calls on text and
      numbers ([%q], [%g], the string and number encoders of [encoding/json])
      are the fields of the class [GoLib]; a theorem stated for all inputs
      holds for every implementation of them, and [go_ref] is the one that
      the program is evaluated with on concrete inputs. The classes [GoTime],
      [GoStd] and [GoEnv] do the same for [time.Time], for [strings] and
      [%v], and for the decoders of [encoding/json] and a helper of the
      package whose code is not part of this development.
    - A call that returns a value and an [error] returns an [outcome]; the
      Terraform client and the request are records of their methods; what is
      only logged is left out. *)

From Stdlib Require Import ZArith Ascii Floats.SpecFloat.
From stdpp Require Import base list strings gmap pretty sorting.

Local Open Scope Z_scope.

(** ** Go primitives *)

Module Go.

(** The line feed (byte 10) and the double quote (byte 34). *)
Definition nl : string := String "010"%char "".
Definition dquote : string := String "034"%char "".

(** [len(s)] of a string or of a slice, an [int]. *)
Definition len_string (s : string) : Z := Z.of_nat (String.length s).
Definition len {A} (l : list A) : Z := Z.of_nat (length l).

(** [s[:n]] for [n <= len(s)]. *)
Definition slice_to (s : string) (n : nat) : string := String.substring 0 n s.

(** 64-bit two's complement [int] arithmetic. *)
Definition int_wrap (z : Z) : Z := (z + 2 ^ 63) mod 2 ^ 64 - 2 ^ 63.
Definition int_add (a b : Z) : Z := int_wrap (a + b).

(** [strings.Repeat(s, count)]; it panics on a negative count, which no
    caller in this file passes (the only depth passed is [0]). *)
Fixpoint repeat_string (s : string) (count : nat) : string :=
  match count with
  | O => ""
  | S n => s +:+ repeat_string s n
  end.
Definition strings_Repeat (s : string) (count : Z) : string :=
  repeat_string s (Z.to_nat count).

(** [strings.Join(elems, sep)]. *)
Fixpoint strings_Join (elems : list string) (sep : string) : string :=
  match elems with
  | [] => ""
  | [e] => e
  | e :: rest => e +:+ sep +:+ strings_Join rest sep
  end.

(** [fmt.Sprintf("%d", n)] and [fmt.Sprintf("%t", b)]. *)
Definition fmt_d (n : Z) : string := pretty n.
Definition fmt_t (b : bool) : string := if b then "true" else "false".

(** A [float64]: an IEEE 754 binary64 value. *)
Definition float64 : Type := spec_float.

Definition float64_eqb (a b : float64) : bool := SFeqb a b.

(** [float64(n)] for an [int64] [n]: the nearest binary64, ties to even. *)
Definition int64_to_float64 (n : Z) : float64 := binary_normalize 53 1024 n 0 false.

(** [int64(v)]: truncation toward zero. Go leaves the result open when the
    truncated value does not fit; amd64 yields the least [int64] then, and
    that is what is modelled. *)
Definition int64_indefinite : Z := - 2 ^ 63.
Definition float64_trunc (v : float64) : option Z :=
  match v with
  | S754_zero _ => Some 0
  | S754_finite s m e =>
      Some (cond_Zopp s (if 0 <=? e then Z.shiftl (Z.pos m) e
                         else Z.shiftr (Z.pos m) (- e)))
  | _ => None
  end.
Definition float64_to_int64 (v : float64) : Z :=
  match float64_trunc v with
  | Some z => if (- 2 ^ 63 <=? z) && (z <? 2 ^ 63) then z else int64_indefinite
  | None => int64_indefinite
  end.

Definition float64_is_finite (v : float64) : bool :=
  match v with
  | S754_zero _ | S754_finite _ _ _ => true
  | _ => false
  end.




(** A byte that [%q] copies unchanged: printable ASCII other than the double
    quote and the backslash. *)
Definition plain_byte (c : ascii) : bool :=
  let n := N_of_ascii c in
  ((32 <=? n) && (n <? 127) && negb (n =? 34) && negb (n =? 92))%N.
Fixpoint plain (s : string) : bool :=
  match s with
  | "" => true
  | String c s' => plain_byte c && plain s'
  end.

End Go.
Export Go.

(** The text and number formatting of Go's standard library that the code
    relies on. [fmt_q_plain] is the one fact about them that is used: [%q]
    wraps a string that needs no escaping in double quotes. *)
Class GoLib := {
  (** [fmt.Sprintf("%q", s)], that is [strconv.Quote(s)] *)
  fmt_q : string → string;
  (** [fmt.Sprintf("%g", v)] *)
  fmt_g : float64 → string;
  (** how [json.Marshal] writes a string (also an object key) *)
  json_string : string → string;
  (** how [json.Marshal] writes a finite [float64] *)
  json_float : float64 → string;
  fmt_q_plain : ∀ s, plain s = true → fmt_q s = dquote +:+ s +:+ dquote;
}.

(** ** The value model *)

(** What [encoding/json] decodes into an [interface{}]: [nil], [bool],
    [float64], [string], [[]interface{}] and [map[string]interface{}]. *)
#[warnings="-register-all"]
Inductive Value : Type :=
| VNil
| VBool (b : bool)
| VFloat64 (v : float64)
| VString (s : string)
| VSlice (items : list Value)
| VMap (m : list (string * Value)).

(** A Go map as the list of its entries. *)
Abbreviation gomap := (list (string * Value)).

(** [v, ok := m[key]]. *)
Fixpoint map_index (m : gomap) (key : string) : option Value :=
  match m with
  | [] => None
  | (k, v) :: rest => if String.eqb k key then Some v else map_index rest key
  end.

Definition map_keys (m : gomap) : list string := m.*1.

(** ** [encoding/json]'s [Marshal] on decoded values *)

(** All-or-nothing collection of the encoded parts. *)
Fixpoint collect {A} (l : list (option A)) : option (list A) :=
  match l with
  | [] => Some []
  | Some x :: rest => cons x <$> collect rest
  | None :: _ => None
  end.

Definition key_le (a b : string * option string) : Prop := String.le a.1 b.1.

Definition json_member `{GoLib} (kv : string * string) : string :=
  json_string kv.1 +:+ ":" +:+ kv.2.

(** [json.Marshal(v)]: compact text, the keys of an object in byte order;
    [None] is the error Go returns for a number that is infinite or not a
    number. *)
Fixpoint json_Marshal `{GoLib} (v : Value) : option string :=
  match v with
  | VNil => Some "null"
  | VBool b => Some (fmt_t b)
  | VFloat64 f => if float64_is_finite f then Some (json_float f) else None
  | VString s => Some (json_string s)
  | VSlice items =>
      (λ parts, "[" +:+ strings_Join parts "," +:+ "]")
        <$> collect (map (λ item, json_Marshal item) items)
  | VMap m =>
      let encoded := map (λ kv, (kv.1, json_Marshal kv.2)) m in
      let sorted := merge_sort key_le encoded in
      (λ parts, "{" +:+ strings_Join (map json_member parts) "," +:+ "}")
        <$> collect (map (λ kv, pair kv.1 <$> kv.2) sorted)
  end.

(** ** The value formatter *)

(** [formatValue(val, depth)]. The [default] case of the type switch is not
    reached by a decoded value and has no counterpart here. *)
Fixpoint formatValue `{GoLib} (val : Value) (depth : Z) : string :=
  match val with
  | VNil => "null"
  | VString v =>
      if 200 <? len_string v
      then fmt_q (slice_to v 200) +:+ "... (truncated)"
      else fmt_q v
  | VFloat64 v =>
      if float64_eqb v (int64_to_float64 (float64_to_int64 v))
      then fmt_d (float64_to_int64 v)
      else fmt_g v
  | VBool v => fmt_t v
  | VSlice v =>
      if len v =? 0 then "[]"
      else if 2 <? depth then "[..." +:+ fmt_d (len v) +:+ " items]"
      else
        let items := map (λ item, formatValue item (int_add depth 1)) v in
        let joined := strings_Join items ", " in
        if 200 <? len_string joined
        then "[..." +:+ fmt_d (len v) +:+ " items]"
        else "[" +:+ joined +:+ "]"
  | VMap v =>
      if len v =? 0 then "{}"
      else if 2 <? depth then "{..." +:+ fmt_d (len v) +:+ " keys}"
      else
        match json_Marshal (VMap v) with
        | None => "{..." +:+ fmt_d (len v) +:+ " keys}"
        | Some s =>
            if 200 <? len_string s
            then "{..." +:+ fmt_d (len v) +:+ " keys}"
            else s
        end
  end.

(** [valuesEqual(a, b)]. *)
Definition valuesEqual `{GoLib} (a b : Value) : bool :=
  match json_Marshal a, json_Marshal b with
  | Some aJSON, Some bJSON => String.eqb aJSON bJSON
  | _, _ => false
  end.

(** ** The tree differ *)

(** The inner loop of [sortStrings]:
    [for j := i; j > 0 && s[j] < s[j-1]; j-- { s[j], s[j-1] = s[j-1], s[j] }].
    Both indices are in range whenever the loop is entered from [sortStrings]. *)
Fixpoint sortStrings_inner (s : list string) (j : nat) : list string :=
  match j with
  | O => s
  | S j' =>
      match s !! j, s !! j' with
      | Some sj, Some sj' =>
          if String.ltb sj sj'
          then sortStrings_inner (<[j' := sj]> (<[j := sj']> s)) j'
          else s
      | _, _ => s
      end
  end.

(** [sortStrings(s)]: the outer loop [for i := 1; i < len(s); i++]; the swaps
    keep [len(s)], so [i] runs over [1 .. len(s)-1]. *)
Definition sortStrings (s : list string) : list string :=
  foldl sortStrings_inner s (seq 1 (length s - 1)).

(** One iteration of either [range] loop of [mergeKeys], on the pair of its
    locals [seen] and [keys]. *)
Definition mergeKeys_step (st : gmap string bool * list string) (k : string)
  : gmap string bool * list string :=
  let '(seen, keys) := st in
  if negb (default false (seen !! k))
  then (<[k := true]> seen, keys ++ [k])
  else (seen, keys).

(** [mergeKeys(a, b)]. *)
Definition mergeKeys (a b : gomap) : list string :=
  let st := foldl mergeKeys_step (∅, []) (map_keys a) in
  let st := foldl mergeKeys_step st (map_keys b) in
  sortStrings st.2.

(** The text that one iteration of the loop of [writeDiff] writes for [key]. *)
Definition diffLine `{GoLib} (before after : gomap) (indent : string)
    (depth : Z) (key : string) : string :=
  match map_index before key, map_index after key with
  | None, Some aVal =>
      "+ " +:+ indent +:+ key +:+ " = " +:+ formatValue aVal (int_add depth 1) +:+ nl
  | Some bVal, None =>
      "- " +:+ indent +:+ key +:+ " = " +:+ formatValue bVal (int_add depth 1) +:+ nl
  | Some bVal, Some aVal =>
      if negb (valuesEqual bVal aVal)
      then "~ " +:+ indent +:+ key +:+ " = " +:+ formatValue bVal (int_add depth 1)
             +:+ " -> " +:+ formatValue aVal (int_add depth 1) +:+ nl
      else ""
  | None, None => ""
  end.

(** [writeDiff(sb, before, after, depth)]. *)
Definition writeDiff `{GoLib} (sb : string) (before after : gomap) (depth : Z)
  : string :=
  let indent := strings_Repeat "  " depth in
  let allKeys := mergeKeys before after in
  foldl (λ sb key, sb +:+ diffLine before after indent depth key) sb allKeys.

(** ** The diff renderer *)

(** [writeMapValues(sb, m, prefix, depth)]: one line per entry, in the order
    in which [range m] yields the entries. *)
Definition writeMapValues `{GoLib} (sb : string) (m : gomap) (prefix : string)
    (depth : Z) : string :=
  let indent := strings_Repeat "  " depth in
  foldl (λ sb kv,
           let formatted := formatValue kv.2 (int_add depth 1) in
           sb +:+ (prefix +:+ indent +:+ kv.1 +:+ " = " +:+ formatted +:+ nl))
        sb m.

Definition maxDiffSize : Z := 4000.

Definition truncationMarker : string :=
  nl +:+ "... (diff truncated, too many changes to display)" +:+ nl.

(** The [switch action] of [buildAttributeDiff]: what the builder holds when
    [sb.String()] is taken. *)
Definition attributeDiffBody `{GoLib} (before after : Value) (action : string)
  : string :=
  if String.eqb action "create" then
    match after with
    | VMap afterMap => writeMapValues "" afterMap "+ " 0
    | _ => ""
    end
  else if String.eqb action "delete" then
    match before with
    | VMap beforeMap => writeMapValues "" beforeMap "- " 0
    | _ => ""
    end
  else if String.eqb action "update"
          || String.eqb action "replace (delete, create)"
          || String.eqb action "replace (create, delete)" then
    match before, after with
    | VMap beforeMap, VMap afterMap => writeDiff "" beforeMap afterMap 0
    | _, _ => ""
    end
  else "".

(** [buildAttributeDiff(before, after, action)]. *)
Definition buildAttributeDiff `{GoLib} (before after : Value) (action : string)
  : string :=
  let result := attributeDiffBody before after action in
  if maxDiffSize <? len_string result
  then slice_to result (Z.to_nat maxDiffSize) +:+ truncationMarker
  else result.

(** ** The action classifier *)

(** [summarizeActions(actions)]. *)
Definition summarizeActions (actions : list string) : string :=
  match actions with
  | [a0] =>
      if String.eqb a0 "create" then "create"
      else if String.eqb a0 "delete" then "delete"
      else if String.eqb a0 "update" then "update"
      else if String.eqb a0 "read" then "read"
      else if String.eqb a0 "no-op" then "no-op"
      else strings_Join actions ", "
  | [a0; a1] =>
      if String.eqb a0 "delete" && String.eqb a1 "create"
      then "replace (delete, create)"
      else if String.eqb a0 "create" && String.eqb a1 "delete"
      then "replace (create, delete)"
      else strings_Join actions ", "
  | _ => strings_Join actions ", "
  end.

(** [actionSymbol(action)]. *)
Definition actionSymbol (action : string) : string :=
  if String.eqb action "create" then "+"
  else if String.eqb action "delete" then "-"
  else if String.eqb action "update" then "~"
  else if String.eqb action "replace (delete, create)"
          || String.eqb action "replace (create, delete)" then "-/+"
  else if String.eqb action "read" then "<="
  else " ".

(** The reason table of [formatActionReason], in the order of its cases. *)
Definition actionReasons : list (string * string) :=
  [ ("replace_because_tainted", "resource is tainted, so must be replaced");
    ("replace_because_cannot_update", "provider requires replacement to apply changes");
    ("replace_by_request", "replacement was requested");
    ("delete_because_no_resource_config", "no resource configuration found");
    ("delete_because_no_module", "module instance no longer declared");
    ("delete_because_wrong_repetition", "instance key not compatible with repetition mode");
    ("delete_because_count_index", "count index out of range");
    ("delete_because_each_key", "for_each key not in current configuration");
    ("read_because_config_unknown", "configuration values unknown until apply");
    ("read_because_dependency_pending", "depends on resource with pending changes") ].

(** A [switch] on a string with one [return] per case and a [default]. *)
Fixpoint switch_string (cases : list (string * string)) (default : string)
    (scrutinee : string) : string :=
  match cases with
  | [] => default
  | (c, r) :: rest =>
      if String.eqb scrutinee c then r else switch_string rest default scrutinee
  end.

(** [formatActionReason(reason)]. *)
Definition formatActionReason (reason : string) : string :=
  switch_string actionReasons reason reason.

(** ** Change records *)

Record change := {
  Actions : list string;
  Before : Value;
  After : Value;
  AfterUnknown : Value;
  BeforeSensitive : Value;
  AfterSensitive : Value;
}.

Record resourceChange := {
  Address : string;
  PrevAddress : string;
  ModuleAddress : string;
  Mode : string;
  Type_ : string;
  Name : string;
  Index : Value;
  Change : change;
  ActionReason : string;
}.

(** The five named results of [countActions]. *)
Record actionCounts := {
  adds : Z;
  updates : Z;
  destroys : Z;
  replaces : Z;
  noops : Z;
}.

(** The [switch] in the loop body of [countActions], on the classification. *)
Definition countAction (c : actionCounts) (action : string) : actionCounts :=
  if String.eqb action "create" then
    {| adds := int_add (adds c) 1; updates := updates c; destroys := destroys c;
       replaces := replaces c; noops := noops c |}
  else if String.eqb action "update" then
    {| adds := adds c; updates := int_add (updates c) 1; destroys := destroys c;
       replaces := replaces c; noops := noops c |}
  else if String.eqb action "delete" then
    {| adds := adds c; updates := updates c; destroys := int_add (destroys c) 1;
       replaces := replaces c; noops := noops c |}
  else if String.eqb action "replace (delete, create)"
          || String.eqb action "replace (create, delete)" then
    {| adds := adds c; updates := updates c; destroys := destroys c;
       replaces := int_add (replaces c) 1; noops := noops c |}
  else if String.eqb action "no-op" || String.eqb action "read" then
    {| adds := adds c; updates := updates c; destroys := destroys c;
       replaces := replaces c; noops := int_add (noops c) 1 |}
  else c.

(** [countActions(changes)]. *)
Definition countActions (changes : list resourceChange) : actionCounts :=
  foldl (λ c rc, countAction c (summarizeActions (Actions (Change rc))))
        {| adds := 0; updates := 0; destroys := 0; replaces := 0; noops := 0 |}
        changes.

(** [writeResourceChange(sb, rc)]. *)
Definition writeResourceChange `{GoLib} (sb : string) (rc : resourceChange)
  : string :=
  let action := summarizeActions (Actions (Change rc)) in
  let symbol := actionSymbol action in
  let sb := sb +:+ ("### " +:+ symbol +:+ " " +:+ Address rc +:+ " (" +:+ action
                      +:+ ")" +:+ nl) in
  let sb := if negb (String.eqb (ActionReason rc) "")
            then sb +:+ ("  *Reason: " +:+ formatActionReason (ActionReason rc)
                           +:+ "*" +:+ nl)
            else sb in
  let diff := buildAttributeDiff (Before (Change rc)) (After (Change rc)) action in
  if negb (String.eqb diff "")
  then sb +:+ (nl +:+ "```diff" +:+ nl) +:+ diff +:+ ("```" +:+ nl +:+ nl)
  else sb +:+ nl.

(** ** More of Go's strings *)

(** [s[n:]] for [n <= len(s)]. *)
Definition slice_from (s : string) (n : nat) : string :=
  String.substring n (String.length s - n) s.

(** [strings.HasSuffix(s, suffix)]:
    [len(s) >= len(suffix) && s[len(s)-len(suffix):] == suffix]. *)
Definition strings_HasSuffix (s suffix : string) : bool :=
  (String.length suffix <=? String.length s)%nat &&
  String.eqb (slice_from s (String.length s - String.length suffix)) suffix.

(** ** Results, errors and the Terraform client *)

(** An [error], by its message. *)
Definition error : Type := string.

(** The two results of a call that can fail. *)
Inductive outcome (A : Type) : Type :=
  | ok (a : A)
  | failed (err : error).
Arguments ok {A} a.
Arguments failed {A} err.

(** What a handler returns: [mcp.NewToolResultText(text)], or what the
    package's helpers [ToolError(logger, message, err)] and
    [ToolErrorf(logger, format, args...)] make of their arguments. *)
Inductive toolResult : Type :=
  | NewToolResultText (text : string)
  | ToolError (message : string) (err : option error)
  | ToolErrorf (format : string) (args : list string).

(** [time.Time] with the two methods that the handlers call. *)
Class GoTime := {
  Time : Type;
  (** [t.IsZero()] *)
  time_IsZero : Time → bool;
  (** [t.Format(layout)] *)
  time_Format : Time → string → string;
}.

(** What the handlers read of a [tfe.Plan]. *)
Module Plan.
Record t := {
  ID : string;
  Status : string;
  HasChanges : bool;
  ResourceAdditions : Z;
  ResourceChanges : Z;
  ResourceDestructions : Z;
  ResourceImports : Z;
}.
End Plan.

Module ApplyStatusTimestamps.
Record t `{GoTime} := {
  CanceledAt : Time;
  ErroredAt : Time;
  FinishedAt : Time;
  QueuedAt : Time;
  StartedAt : Time;
}.
End ApplyStatusTimestamps.

(** What the handlers read of a [tfe.Apply]. *)
Module Apply.
Record t `{GoTime} := {
  ID : string;
  Status : string;
  ResourceAdditions : Z;
  ResourceChanges : Z;
  ResourceDestructions : Z;
  ResourceImports : Z;
  StatusTimestamps : option ApplyStatusTimestamps.t;
}.
End Apply.

(** What the handlers read of a [tfe.Run]; [Plan] and [Apply] are pointers,
    [None] for [nil]. *)
Module Run.
Record t `{GoTime} := {
  ID : string;
  Status : string;
  Plan : option Plan.t;
  Apply : option Apply.t;
}.
End Run.

(** The two values of [tfe.RunIncludeOpt] that the handlers pass. *)
Inductive RunIncludeOpt : Type := RunPlan | RunApply.

Module Workspace.
Record t := {
  ID : string;
}.
End Workspace.

Module StateVersionResources.
Record t := {
  Name : string;
  Count : Z;
  Type_ : string;
  Module_ : string;
  Provider : string;
}.
End StateVersionResources.

Module StateVersionOutput.
Record t := {
  Name : string;
  Sensitive : bool;
  Type_ : string;
  Value : Value;
}.
End StateVersionOutput.

(** What [getCurrentStateHandler] reads of a [tfe.StateVersion]. *)
Module StateVersion.
Record t `{GoTime} := {
  ID : string;
  CreatedAt : Time;
  JSONDownloadURL : string;
  Serial : Z;
  Status : string;
  VCSCommitSHA : string;
  VCSCommitURL : string;
  ResourcesProcessed : bool;
  TerraformVersion : string;
  Resources : list StateVersionResources.t;
  Outputs : list StateVersionOutput.t;
}.
End StateVersion.

Module Tag.
Record t := {
  Name : string;
}.
End Tag.

Module Project.
Record t := {
  ID : string;
}.
End Project.

(** The fields of [tfe.VCSRepoOptions] and of [tfe.WorkspaceCreateOptions]
    that [createWorkspaceHandler] sets; a pointer field is [None] when it is
    left [nil], and the slice [Tags] is the list of its elements. *)
Module VCSRepoOptions.
Record t := {
  Branch : option string;
  Identifier : option string;
  OAuthTokenID : option string;
}.
End VCSRepoOptions.

Module WorkspaceCreateOptions.
Record t := {
  Name : option string;
  AutoApply : option bool;
  Tags : list Tag.t;
  SourceName : option string;
  Description : option string;
  TerraformVersion : option string;
  WorkingDirectory : option string;
  Project : option Project.t;
  ExecutionMode : option string;
  VCSRepo : option VCSRepoOptions.t;
}.
End WorkspaceCreateOptions.

Module outputChange.
Record t := {
  Change : change;
}.
End outputChange.

(** [jsonPlan]; [OutputChanges] is a map, here in the order in which [range]
    yields its entries. *)
Module jsonPlan.
Record t := {
  FormatVersion : string;
  TerraformVersion : string;
  Applyable : bool;
  Complete : bool;
  Errored : bool;
  ResourceChanges : list resourceChange;
  OutputChanges : list (string * outputChange.t);
  ResourceDrift : list resourceChange;
}.
End jsonPlan.

(** An [io.Reader], by what [io.ReadAll] returns on it. *)
Definition Reader : Type := outcome string.

(** A [tfe.Client], by the methods that the handlers call; the context and
    the option structs that a handler fills with constants are left out.
    [Workspaces_Create] also tells whether the deadline of the context it
    was given has passed when it returns. *)
Module Client.
Record t `{GoTime} := {
  Runs_ReadWithOptions : string → list RunIncludeOpt → outcome Run.t;
  Plans_ReadJSONOutput : string → outcome string;
  Plans_Logs : string → outcome Reader;
  Applies_Logs : string → outcome Reader;
  Workspaces_Read : string → string → outcome Workspace.t;
  Workspaces_Create :
    string → WorkspaceCreateOptions.t → outcome Workspace.t * bool;
  StateVersions_ReadCurrentWithOptions : string → outcome StateVersion.t;
  StateVersions_ListOutputs :
    string → outcome (option (list StateVersionOutput.t));
  StateVersions_Download : string → outcome string;
}.
End Client.

(** An [mcp.CallToolRequest], by the two methods that the handlers call. *)
Module CallToolRequest.
Record t := {
  RequireString : string → outcome string;
  GetString : string → string → string;
}.
End CallToolRequest.

(** Functions of Go's [strings] and [fmt] that the handlers call. *)
Class GoStd := {
  strings_TrimSpace : string → string;
  strings_ToLower : string → string;
  (** [fmt.Sprintf("%v", v)] *)
  fmt_v : Value → string;
}.

(** What else the handlers call: the decoders and the indenting encoder of
    [encoding/json], and [getWorkspaceDetailsForTools], a helper of the
    package, by the text of the buffer it returns. *)
Class GoEnv `{GoTime} := {
  (** [json.Unmarshal(data, &parsed)] for a [jsonPlan] *)
  json_Unmarshal_jsonPlan : string → outcome jsonPlan.t;
  (** [json.Unmarshal(data, &m)] for a [map[string]interface{}] *)
  json_Unmarshal_map : string → outcome gomap;
  (** [json.MarshalIndent(m, prefix, indent)] *)
  json_MarshalIndent : gomap → string → string → outcome string;
  getWorkspaceDetailsForTools :
    string → Client.t → Workspace.t → outcome string;
}.

(** ** The plan response *)

(** The local [actualChanges] of [buildFormattedPlanResponse]: the records
    whose classification is neither [no-op] nor [read], appended in order. *)
Definition actualChanges (changes : list resourceChange) : list resourceChange :=
  foldl (λ actualChanges rc,
           let action := summarizeActions (Actions (Change rc)) in
           if negb (String.eqb action "no-op") && negb (String.eqb action "read")
           then actualChanges ++ [rc]
           else actualChanges)
        [] changes.

(** [buildFormattedPlanResponse(run, plan, parsed)]. *)
Definition buildFormattedPlanResponse `{GoLib} `{GoTime} (run : Run.t) (plan : Plan.t)
    (parsed : jsonPlan.t) : toolResult :=
  let sb := "" in
  let sb := sb +:+ ("# Plan Details for Run " +:+ Run.ID run +:+ nl +:+ nl) in
  let sb := sb +:+ ("**Plan ID:** " +:+ Plan.ID plan +:+ nl) in
  let sb := sb +:+ ("**Plan Status:** " +:+ Plan.Status plan +:+ nl) in
  let sb := sb +:+ ("**Run Status:** " +:+ Run.Status run +:+ nl) in
  let sb := if negb (String.eqb (jsonPlan.TerraformVersion parsed) "")
            then sb +:+ ("**Terraform Version:** "
                           +:+ jsonPlan.TerraformVersion parsed +:+ nl)
            else sb in
  let sb := sb +:+ ("**Applyable:** " +:+ fmt_t (jsonPlan.Applyable parsed) +:+ nl) in
  let sb := if jsonPlan.Errored parsed
            then sb +:+ ("**Errored:** true" +:+ nl)
            else sb in
  let c := countActions (jsonPlan.ResourceChanges parsed) in
  let sb := sb +:+ (nl +:+ "## Summary: " +:+ fmt_d (adds c) +:+ " to add, "
                      +:+ fmt_d (updates c) +:+ " to change, "
                      +:+ fmt_d (destroys c) +:+ " to destroy") in
  let sb := if 0 <? replaces c
            then sb +:+ (", " +:+ fmt_d (replaces c) +:+ " to replace")
            else sb in
  let sb := sb +:+ nl in
  let sb :=
    if 0 <? len (jsonPlan.ResourceDrift parsed) then
      let sb := sb +:+ (nl +:+ "## Resource Drift ("
                          +:+ fmt_d (len (jsonPlan.ResourceDrift parsed))
                          +:+ " detected)" +:+ nl +:+ nl) in
      let sb := sb +:+ ("Changes detected outside of Terraform:" +:+ nl +:+ nl) in
      foldl writeResourceChange sb (jsonPlan.ResourceDrift parsed)
    else sb in
  let sb :=
    if 0 <? len (jsonPlan.ResourceChanges parsed) then
      let actualChanges := actualChanges (jsonPlan.ResourceChanges parsed) in
      let sb :=
        if 0 <? len actualChanges then
          let sb := sb +:+ (nl +:+ "## Resource Changes ("
                              +:+ fmt_d (len actualChanges) +:+ ")" +:+ nl +:+ nl) in
          foldl writeResourceChange sb actualChanges
        else sb in
      if 0 <? noops c
      then sb +:+ (nl +:+ "*(" +:+ fmt_d (noops c)
                     +:+ " resources unchanged, not shown)*" +:+ nl)
      else sb
    else
      sb +:+ (nl +:+ "## Resource Changes" +:+ nl +:+ nl
                +:+ "No resource changes planned." +:+ nl) in
  let sb :=
    if 0 <? len (jsonPlan.OutputChanges parsed) then
      let sb := sb +:+ (nl +:+ "## Output Changes ("
                          +:+ fmt_d (len (jsonPlan.OutputChanges parsed))
                          +:+ ")" +:+ nl +:+ nl) in
      foldl (λ sb entry,
               let name := entry.1 in
               let oc := entry.2 in
               let action := summarizeActions (Actions (outputChange.Change oc)) in
               sb +:+ ("- **" +:+ name +:+ "** (" +:+ action +:+ ")" +:+ nl))
            sb (jsonPlan.OutputChanges parsed)
    else sb in
  NewToolResultText sb.

Definition maxLogSize : Z := 50000.

(** [buildPlanMetadataResponse(ctx, run, plan, tfeClient, logger)]. *)
Definition buildPlanMetadataResponse `{GoTime} (run : Run.t) (plan : Plan.t)
    (tfeClient : Client.t) : toolResult :=
  let sb := "" in
  let sb := sb +:+ ("# Plan Details for Run " +:+ Run.ID run +:+ nl +:+ nl) in
  let sb := sb +:+ ("**Plan ID:** " +:+ Plan.ID plan +:+ nl) in
  let sb := sb +:+ ("**Plan Status:** " +:+ Plan.Status plan +:+ nl) in
  let sb := sb +:+ ("**Run Status:** " +:+ Run.Status run +:+ nl) in
  let sb := sb +:+ ("**Has Changes:** " +:+ fmt_t (Plan.HasChanges plan) +:+ nl) in
  let sb := sb +:+ ("**Resource Additions:** "
                      +:+ fmt_d (Plan.ResourceAdditions plan) +:+ nl) in
  let sb := sb +:+ ("**Resource Changes:** "
                      +:+ fmt_d (Plan.ResourceChanges plan) +:+ nl) in
  let sb := sb +:+ ("**Resource Destructions:** "
                      +:+ fmt_d (Plan.ResourceDestructions plan) +:+ nl) in
  let sb := sb +:+ ("**Resource Imports:** "
                      +:+ fmt_d (Plan.ResourceImports plan) +:+ nl) in
  if String.eqb (Plan.Status plan) "pending"
     || String.eqb (Plan.Status plan) "queued"
     || String.eqb (Plan.Status plan) "unreachable" then
    let sb := sb +:+ (nl +:+ "> **Note:** Detailed resource changes are not yet available because the plan status is `"
                        +:+ Plan.Status plan +:+ "`. ") in
    let sb := sb +:+ ("Re-run this tool after the plan has finished to see the full execution plan." +:+ nl) in
    NewToolResultText sb
  else
    match Client.Plans_Logs tfeClient (Plan.ID plan) with
    | failed err =>
        let sb := if String.eqb (Plan.Status plan) "errored"
                  then sb +:+ (nl +:+ "> **Note:** The plan errored but logs could not be retrieved." +:+ nl)
                  else sb in
        NewToolResultText sb
    | ok logReader =>
        match logReader with
        | failed err => NewToolResultText sb
        | ok logBytes =>
            let logContent := logBytes in
            let sb :=
              if negb (String.eqb logContent "") then
                let truncated := maxLogSize <? len_string logContent in
                let logContent :=
                  if truncated
                  then slice_from logContent
                         (Z.to_nat (len_string logContent - maxLogSize))
                  else logContent in
                let sb := sb +:+ (nl +:+ "## Plan Logs" +:+ nl +:+ nl) in
                let sb := if truncated
                          then sb +:+ ("*(Log output truncated -- showing last portion which typically contains errors)*" +:+ nl +:+ nl)
                          else sb in
                let sb := sb +:+ ("```" +:+ nl) in
                let sb := sb +:+ logContent in
                let sb := if negb (strings_HasSuffix logContent nl)
                          then sb +:+ nl
                          else sb in
                sb +:+ ("```" +:+ nl)
              else if String.eqb (Plan.Status plan) "errored" then
                sb +:+ (nl +:+ "> **Note:** The plan errored but no log output is available." +:+ nl)
              else sb in
            NewToolResultText sb
        end
    end.

(** [getPlanDetailsHandler(ctx, request, logger)]; [ctx] is what
    [client.GetTfeClientFromContext] finds in the context. *)
Definition getPlanDetailsHandler `{GoLib} `{GoEnv} (ctx : outcome Client.t)
    (request : CallToolRequest.t) : toolResult :=
  match CallToolRequest.RequireString request "run_id" with
  | failed err => ToolError "missing required input: run_id" (Some err)
  | ok runID =>
  match ctx with
  | failed err => ToolError "failed to get Terraform client" (Some err)
  | ok tfeClient =>
  match Client.Runs_ReadWithOptions tfeClient runID [RunPlan] with
  | failed err => ToolErrorf "run not found: %s" [runID]
  | ok run =>
  match Run.Plan run with
  | None => ToolErrorf "no plan associated with run: %s" [runID]
  | Some plan =>
  match Client.Plans_ReadJSONOutput tfeClient (Plan.ID plan) with
  | failed err => buildPlanMetadataResponse run plan tfeClient
  | ok jsonOutput =>
      if len_string jsonOutput =? 0 then
        buildPlanMetadataResponse run plan tfeClient
      else
        match json_Unmarshal_jsonPlan jsonOutput with
        | failed err => buildPlanMetadataResponse run plan tfeClient
        | ok parsed => buildFormattedPlanResponse run plan parsed
        end
  end end end end end.

(** ** The apply handler *)

(** The layout that the handlers format every time with. *)
Definition timeLayout : string := "2006-01-02 15:04:05 UTC".

(** [getApplyDetailsHandler(ctx, request, logger)]. *)
Definition getApplyDetailsHandler `{GoTime} (ctx : outcome Client.t)
    (request : CallToolRequest.t) : toolResult :=
  match CallToolRequest.RequireString request "run_id" with
  | failed err => ToolError "missing required input: run_id" (Some err)
  | ok runID =>
  match ctx with
  | failed err => ToolError "failed to get Terraform client" (Some err)
  | ok tfeClient =>
  match Client.Runs_ReadWithOptions tfeClient runID [RunApply] with
  | failed err => ToolErrorf "run not found: %s" [runID]
  | ok run =>
  match Run.Apply run with
  | None =>
      ToolErrorf "no apply associated with run: %s (run status: %s)"
        [runID; Run.Status run]
  | Some apply =>
  let sb := "" in
  let sb := sb +:+ ("# Apply Details for Run " +:+ Run.ID run +:+ nl +:+ nl) in
  let sb := sb +:+ ("**Apply ID:** " +:+ Apply.ID apply +:+ nl) in
  let sb := sb +:+ ("**Apply Status:** " +:+ Apply.Status apply +:+ nl) in
  let sb := sb +:+ ("**Run Status:** " +:+ Run.Status run +:+ nl) in
  let sb := sb +:+ ("**Resource Additions:** "
                      +:+ fmt_d (Apply.ResourceAdditions apply) +:+ nl) in
  let sb := sb +:+ ("**Resource Changes:** "
                      +:+ fmt_d (Apply.ResourceChanges apply) +:+ nl) in
  let sb := sb +:+ ("**Resource Destructions:** "
                      +:+ fmt_d (Apply.ResourceDestructions apply) +:+ nl) in
  let sb := sb +:+ ("**Resource Imports:** "
                      +:+ fmt_d (Apply.ResourceImports apply) +:+ nl) in
  let sb :=
    match Apply.StatusTimestamps apply with
    | Some ts =>
        let sb := sb +:+ (nl +:+ "## Timestamps" +:+ nl +:+ nl) in
        let sb := if negb (time_IsZero (ApplyStatusTimestamps.QueuedAt ts))
                  then sb +:+ ("- **Queued:** "
                         +:+ time_Format (ApplyStatusTimestamps.QueuedAt ts) timeLayout
                         +:+ nl)
                  else sb in
        let sb := if negb (time_IsZero (ApplyStatusTimestamps.StartedAt ts))
                  then sb +:+ ("- **Started:** "
                         +:+ time_Format (ApplyStatusTimestamps.StartedAt ts) timeLayout
                         +:+ nl)
                  else sb in
        let sb := if negb (time_IsZero (ApplyStatusTimestamps.FinishedAt ts))
                  then sb +:+ ("- **Finished:** "
                         +:+ time_Format (ApplyStatusTimestamps.FinishedAt ts) timeLayout
                         +:+ nl)
                  else sb in
        let sb := if negb (time_IsZero (ApplyStatusTimestamps.ErroredAt ts))
                  then sb +:+ ("- **Errored:** "
                         +:+ time_Format (ApplyStatusTimestamps.ErroredAt ts) timeLayout
                         +:+ nl)
                  else sb in
        let sb := if negb (time_IsZero (ApplyStatusTimestamps.CanceledAt ts))
                  then sb +:+ ("- **Canceled:** "
                         +:+ time_Format (ApplyStatusTimestamps.CanceledAt ts) timeLayout
                         +:+ nl)
                  else sb in
        sb
    | None => sb
    end in
  if String.eqb (Apply.Status apply) "pending"
     || String.eqb (Apply.Status apply) "queued"
     || String.eqb (Apply.Status apply) "unreachable" then
    let sb := sb +:+ (nl +:+ "> **Note:** Apply logs are not yet available because the apply status is `"
                        +:+ Apply.Status apply +:+ "`. ") in
    let sb := sb +:+ ("Re-run this tool after the apply has started or completed to see the full logs." +:+ nl) in
    NewToolResultText sb
  else
    match Client.Applies_Logs tfeClient (Apply.ID apply) with
    | failed err =>
        let sb := sb +:+ (nl +:+ "> **Note:** Could not retrieve apply logs." +:+ nl) in
        NewToolResultText sb
    | ok logReader =>
        match logReader with
        | failed err =>
            let sb := sb +:+ (nl +:+ "> **Note:** Could not read apply logs." +:+ nl) in
            NewToolResultText sb
        | ok logBytes =>
            let logContent := logBytes in
            let sb :=
              if String.eqb logContent "" then
                sb +:+ (nl +:+ "## Apply Logs" +:+ nl +:+ nl
                          +:+ "No log output available." +:+ nl)
              else
                let truncated := maxLogSize <? len_string logContent in
                let logContent :=
                  if truncated
                  then slice_from logContent
                         (Z.to_nat (len_string logContent - maxLogSize))
                  else logContent in
                let sb := sb +:+ (nl +:+ "## Apply Logs" +:+ nl +:+ nl) in
                let sb := if truncated
                          then sb +:+ ("*(Log output truncated -- showing last portion which typically contains errors)*" +:+ nl +:+ nl)
                          else sb in
                let sb := sb +:+ ("```" +:+ nl) in
                let sb := sb +:+ logContent in
                let sb := if negb (strings_HasSuffix logContent nl)
                          then sb +:+ nl
                          else sb in
                sb +:+ ("```" +:+ nl) in
            NewToolResultText sb
        end
    end
  end end end end.

(** ** The current state *)

(** [formatOutputValue(value)]. *)
Definition formatOutputValue `{GoLib} `{GoStd} (value : Value) : string :=
  match value with
  | VNil => "`null`"
  | VString v => "`" +:+ v +:+ "`"
  | VFloat64 v =>
      if float64_eqb v (int64_to_float64 (float64_to_int64 v))
      then "`" +:+ fmt_d (float64_to_int64 v) +:+ "`"
      else "`" +:+ fmt_g v +:+ "`"
  | VBool v => "`" +:+ fmt_t v +:+ "`"
  | v =>
      match json_Marshal v with
      | None => "`" +:+ fmt_v v +:+ "`"
      | Some jsonBytes => "```json" +:+ nl +:+ jsonBytes +:+ nl +:+ "```"
      end
  end.

(** The body of either loop of [getCurrentStateHandler] over outputs; the two
    bodies are the same. *)
Definition writeStateOutput `{GoLib} `{GoStd} (sb : string)
    (output : StateVersionOutput.t) : string :=
  if StateVersionOutput.Sensitive output then
    sb +:+ ("- **" +:+ StateVersionOutput.Name output +:+ "** (sensitive, type: "
              +:+ StateVersionOutput.Type_ output +:+ "): `<sensitive>`" +:+ nl)
  else
    let valueStr := formatOutputValue (StateVersionOutput.Value output) in
    sb +:+ ("- **" +:+ StateVersionOutput.Name output +:+ "** (type: "
              +:+ StateVersionOutput.Type_ output +:+ "): " +:+ valueStr +:+ nl).

(** The dash of one of the messages, U+2014 in UTF-8. *)
Definition em_dash : string :=
  String "226"%char (String "128"%char (String "148"%char "")).

(** [getCurrentStateHandler(ctx, request, logger)]. *)
Definition getCurrentStateHandler `{GoLib} `{GoStd} `{GoEnv} (ctx : outcome Client.t)
    (request : CallToolRequest.t) : toolResult :=
  match CallToolRequest.RequireString request "terraform_org_name" with
  | failed err => ToolError "missing required input: terraform_org_name" (Some err)
  | ok terraformOrgName =>
  let terraformOrgName := strings_TrimSpace terraformOrgName in
  match CallToolRequest.RequireString request "workspace_name" with
  | failed err => ToolError "missing required input: workspace_name" (Some err)
  | ok workspaceName =>
  let workspaceName := strings_TrimSpace workspaceName in
  let includeFullState :=
    String.eqb
      (strings_ToLower
         (strings_TrimSpace
            (CallToolRequest.GetString request "include_full_state" "false")))
      "true" in
  match ctx with
  | failed err => ToolError "failed to get Terraform client" (Some err)
  | ok tfeClient =>
  match Client.Workspaces_Read tfeClient terraformOrgName workspaceName with
  | failed err =>
      ToolErrorf "workspace '%s' not found in org '%s'"
        [workspaceName; terraformOrgName]
  | ok workspace =>
  match Client.StateVersions_ReadCurrentWithOptions tfeClient
          (Workspace.ID workspace) with
  | failed err =>
      ToolErrorf ("no state found for workspace '%s' " +:+ em_dash
                    +:+ " the workspace may not have been applied yet")
        [workspaceName]
  | ok sv =>
  let sb := "" in
  let sb := sb +:+ ("# Current State for Workspace: " +:+ terraformOrgName
                      +:+ "/" +:+ workspaceName +:+ nl +:+ nl) in
  let sb := sb +:+ ("## State Version Metadata" +:+ nl +:+ nl) in
  let sb := sb +:+ ("**State Version ID:** " +:+ StateVersion.ID sv +:+ nl) in
  let sb := sb +:+ ("**Serial:** " +:+ fmt_d (StateVersion.Serial sv) +:+ nl) in
  let sb := sb +:+ ("**Status:** " +:+ StateVersion.Status sv +:+ nl) in
  let sb := sb +:+ ("**Created At:** "
                      +:+ time_Format (StateVersion.CreatedAt sv) timeLayout
                      +:+ nl) in
  let sb := if StateVersion.ResourcesProcessed sv
            then sb +:+ ("**Resources Processed:** yes" +:+ nl)
            else sb +:+ ("**Resources Processed:** no (some fields may still be populating)" +:+ nl) in
  let sb := if negb (String.eqb (StateVersion.TerraformVersion sv) "")
            then sb +:+ ("**Terraform Version:** "
                           +:+ StateVersion.TerraformVersion sv +:+ nl)
            else sb in
  let sb := if negb (String.eqb (StateVersion.VCSCommitSHA sv) "")
            then sb +:+ ("**VCS Commit SHA:** "
                           +:+ StateVersion.VCSCommitSHA sv +:+ nl)
            else sb in
  let sb := if negb (String.eqb (StateVersion.VCSCommitURL sv) "")
            then sb +:+ ("**VCS Commit URL:** "
                           +:+ StateVersion.VCSCommitURL sv +:+ nl)
            else sb in
  let sb :=
    if 0 <? len (StateVersion.Resources sv) then
      let sb := sb +:+ (nl +:+ "## Managed Resources" +:+ nl +:+ nl) in
      let sb := sb +:+ ("| Type | Name | Module | Provider | Count |" +:+ nl) in
      let sb := sb +:+ ("|------|------|--------|----------|-------|" +:+ nl) in
      foldl (λ sb r,
               let module := StateVersionResources.Module_ r in
               let module := if String.eqb module "" then "(root)" else module in
               sb +:+ ("| " +:+ StateVersionResources.Type_ r
                         +:+ " | " +:+ StateVersionResources.Name r
                         +:+ " | " +:+ module
                         +:+ " | " +:+ StateVersionResources.Provider r
                         +:+ " | " +:+ fmt_d (StateVersionResources.Count r)
                         +:+ " |" +:+ nl))
            sb (StateVersion.Resources sv)
    else sb in
  let sb :=
    if 0 <? len (StateVersion.Outputs sv) then
      let sb := sb +:+ (nl +:+ "## State Outputs" +:+ nl +:+ nl) in
      foldl writeStateOutput sb (StateVersion.Outputs sv)
    else
      match Client.StateVersions_ListOutputs tfeClient (StateVersion.ID sv) with
      | ok (Some items) =>
          if 0 <? len items then
            let sb := sb +:+ (nl +:+ "## State Outputs" +:+ nl +:+ nl) in
            foldl writeStateOutput sb items
          else
            sb +:+ (nl +:+ "## State Outputs" +:+ nl +:+ nl
                      +:+ "No outputs defined." +:+ nl)
      | _ =>
          sb +:+ (nl +:+ "## State Outputs" +:+ nl +:+ nl
                    +:+ "No outputs defined." +:+ nl)
      end in
  let sb :=
    if includeFullState
       && negb (String.eqb (StateVersion.JSONDownloadURL sv) "") then
      match Client.StateVersions_Download tfeClient
              (StateVersion.JSONDownloadURL sv) with
      | failed err =>
          sb +:+ (nl +:+ "> **Note:** Could not download the full JSON state representation." +:+ nl)
      | ok stateBytes =>
          match json_Unmarshal_map stateBytes with
          | ok prettyJSON =>
              match json_MarshalIndent prettyJSON "" "  " with
              | ok formatted =>
                  let stateContent := formatted in
                  let sb := sb +:+ (nl +:+ "## Full JSON State" +:+ nl +:+ nl) in
                  let sb := sb +:+ ("```json" +:+ nl) in
                  let sb := sb +:+ stateContent in
                  let sb := if negb (strings_HasSuffix stateContent nl)
                            then sb +:+ nl
                            else sb in
                  sb +:+ ("```" +:+ nl)
              | failed err => sb
              end
          | failed err => sb
          end
      end
    else sb in
  NewToolResultText sb
  end end end end end.

(** ** Creating a workspace *)

Definition SourceName : string := "terraform-mcp-server".

(** [strings.Split(s, sep)] for a separator of one byte, the only kind that
    the code passes. *)
Fixpoint split_byte (sep : ascii) (s : string) : list string :=
  match s with
  | "" => [""]
  | String c s' =>
      if Ascii.eqb c sep then "" :: split_byte sep s'
      else match split_byte sep s' with
           | [] => [String c ""]
           | part :: parts => String c part :: parts
           end
  end.

(** What [createWorkspaceHandler] has when it reaches
    [tfeClient.Workspaces.Create]: the client, the organization and workspace
    names and the options. *)
Record createCall `{GoTime} := {
  call_client : Client.t;
  call_org : string;
  call_workspace : string;
  call_options : WorkspaceCreateOptions.t;
}.

(** [createWorkspaceHandler] up to the call of [Workspaces.Create]: an
    early [return], or what the call is made with. [switch] is the
    [executionMode] that the first [switch] leaves, [None] for its [default],
    which returns. The fields of the options are gathered where the code
    assigns them one by one. *)
Definition createWorkspaceRequest `{GoTime} `{GoStd} (ctx : outcome Client.t)
    (request : CallToolRequest.t) : toolResult + createCall :=
  match CallToolRequest.RequireString request "terraform_org_name" with
  | failed err =>
      inl (ToolError "missing required input: terraform_org_name" (Some err))
  | ok terraformOrgName =>
  let terraformOrgName := strings_TrimSpace terraformOrgName in
  match CallToolRequest.RequireString request "workspace_name" with
  | failed err =>
      inl (ToolError "missing required input: workspace_name" (Some err))
  | ok workspaceName =>
  let workspaceName := strings_TrimSpace workspaceName in
  let description := CallToolRequest.GetString request "description" "" in
  let terraformVersion := CallToolRequest.GetString request "terraform_version" "" in
  let workingDirectory := CallToolRequest.GetString request "working_directory" "" in
  let autoApplyStr := CallToolRequest.GetString request "auto_apply" "false" in
  let executionModeStr := CallToolRequest.GetString request "execution_mode" "" in
  let projectID := CallToolRequest.GetString request "project_id" "" in
  let vcsRepoIdentifier := CallToolRequest.GetString request "vcs_repo_identifier" "" in
  let vcsRepoBranch := CallToolRequest.GetString request "vcs_repo_branch" "" in
  let vcsRepoOAuthTokenID :=
    CallToolRequest.GetString request "vcs_repo_oauth_token_id" "" in
  let tagsStr := CallToolRequest.GetString request "tags" "" in
  let autoApply := String.eqb (strings_ToLower autoApplyStr) "true" in
  let mode := strings_ToLower executionModeStr in
  let switch : option string :=
    if String.eqb mode "local" then Some "local"
    else if String.eqb mode "agent" then Some "agent"
    else if String.eqb mode "remote" || String.eqb mode "" then Some "remote"
    else None in
  match switch with
  | None =>
      inl (ToolErrorf
             "invalid execution_mode '%s' - must be 'remote', 'local', or 'agent'"
             [executionModeStr])
  | Some executionMode =>
  let tags :=
    if negb (String.eqb tagsStr "") then
      let tagNames := split_byte "," (strings_TrimSpace tagsStr) in
      foldl (λ tags tagName,
               let tagName := strings_TrimSpace tagName in
               if negb (String.eqb tagName "")
               then tags ++ [{| Tag.Name := tagName |}]
               else tags)
            [] tagNames
    else [] in
  match ctx with
  | failed err =>
      inl (ToolError
             "failed to get Terraform client - ensure TFE_TOKEN and TFE_ADDRESS are configured"
             (Some err))
  | ok tfeClient =>
  if negb (String.eqb vcsRepoIdentifier "") && String.eqb vcsRepoOAuthTokenID "" then
    inl (ToolError
           "vcs_repo_oauth_token_id is required when vcs_repo_identifier is provided"
           None)
  else
  let options := {|
    WorkspaceCreateOptions.Name := Some workspaceName;
    WorkspaceCreateOptions.AutoApply := Some autoApply;
    WorkspaceCreateOptions.Tags := tags;
    WorkspaceCreateOptions.SourceName := Some SourceName;
    WorkspaceCreateOptions.Description :=
      if negb (String.eqb description "") then Some description else None;
    WorkspaceCreateOptions.TerraformVersion :=
      if negb (String.eqb terraformVersion "") then Some terraformVersion else None;
    WorkspaceCreateOptions.WorkingDirectory :=
      if negb (String.eqb workingDirectory "") then Some workingDirectory else None;
    WorkspaceCreateOptions.Project :=
      if negb (String.eqb projectID "") then Some {| Project.ID := projectID |}
      else None;
    WorkspaceCreateOptions.ExecutionMode :=
      if negb (String.eqb executionModeStr "") then
        if String.eqb executionMode "local" then Some "local"
        else if String.eqb executionMode "agent" then Some "agent"
        else if String.eqb executionMode "remote" then Some "remote"
        else None
      else None;
    WorkspaceCreateOptions.VCSRepo :=
      if negb (String.eqb vcsRepoIdentifier "") then
        Some {| VCSRepoOptions.Identifier := Some vcsRepoIdentifier;
                VCSRepoOptions.OAuthTokenID := Some vcsRepoOAuthTokenID;
                VCSRepoOptions.Branch :=
                  if negb (String.eqb vcsRepoBranch "") then Some vcsRepoBranch
                  else None |}
      else None;
  |} in
  inr {| call_client := tfeClient; call_org := terraformOrgName;
         call_workspace := workspaceName; call_options := options |}
  end end end end.

(** [createWorkspaceHandler(ctx, request, logger)]. *)
Definition createWorkspaceHandler `{GoStd} `{GoEnv} (ctx : outcome Client.t)
    (request : CallToolRequest.t) : toolResult :=
  match createWorkspaceRequest ctx request with
  | inl result => result
  | inr call =>
      let tfeClient := call_client call in
      let terraformOrgName := call_org call in
      let workspaceName := call_workspace call in
      let '(created, deadlineExceeded) :=
        Client.Workspaces_Create tfeClient terraformOrgName (call_options call) in
      match created with
      | failed err =>
          if deadlineExceeded then
            ToolErrorf
              "timed out creating workspace '%s' in org '%s' (server may be retrying) - check VCS configuration and try again"
              [workspaceName; terraformOrgName]
          else
            ToolErrorf "failed to create workspace '%s' in org '%s': %v"
              [workspaceName; terraformOrgName; err]
      | ok workspace =>
          match getWorkspaceDetailsForTools "create_workspace" tfeClient workspace with
          | failed err => ToolError "failed to get workspace details" (Some err)
          | ok buf => NewToolResultText buf
          end
      end
  end.

(** ** Fixtures *)

(** A record with the given address, actions, snapshots and reason, and
    nothing in the fields that rendering does not read. *)
Definition record (address : string) (actions : list string)
    (before after : Value) (reason : string) : resourceChange :=
  {| Address := address; PrevAddress := ""; ModuleAddress := "";
     Mode := "managed"; Type_ := ""; Name := ""; Index := VNil;
     Change := {| Actions := actions; Before := before; After := after;
                  AfterUnknown := VNil; BeforeSensitive := VNil;
                  AfterSensitive := VNil |};
     ActionReason := reason |}.

(** The number [n] as a decoded value. *)
Definition num (n : Z) : Value := VFloat64 (int64_to_float64 n).

(** The seven action lists that [summarizeActions] names; every other list
    reaches its final [strings.Join]. *)
Definition named_actions : list (list string) :=
  [ ["create"]; ["delete"]; ["update"]; ["read"]; ["no-op"];
    ["delete"; "create"]; ["create"; "delete"] ].
Definition fallback (actions : list string) : bool :=
  bool_decide (actions ∉ named_actions).

(** ** A reference implementation of the library functions

    [go_ref] follows the documented behaviour of [strconv] and
    [encoding/json] on ASCII text and on every [float64]; a byte above 127 is
    copied as it is, which is what Go does inside well-formed printable
    non-ASCII text. It serves to evaluate the functions above on concrete
    inputs; no theorem below depends on it except through such evaluations. *)

Module GoRef.

Definition backslash : string := String "092"%char "".

Definition hex_digit (n : N) : ascii :=
  (if n <? 10 then ascii_of_N (48 + n) else ascii_of_N (87 + n))%N.
Definition hex2 (n : N) : string :=
  String (hex_digit (n / 16)) (String (hex_digit (n mod 16)) "").

(** [strconv.Quote], byte by byte. *)
Definition quote_byte (c : ascii) : string :=
  let n := N_of_ascii c in
  if plain_byte c then String c ""
  else if (n =? 34)%N then backslash +:+ dquote
  else if (n =? 92)%N then backslash +:+ backslash
  else if (n =? 7)%N then backslash +:+ "a"
  else if (n =? 8)%N then backslash +:+ "b"
  else if (n =? 12)%N then backslash +:+ "f"
  else if (n =? 10)%N then backslash +:+ "n"
  else if (n =? 13)%N then backslash +:+ "r"
  else if (n =? 9)%N then backslash +:+ "t"
  else if (n =? 11)%N then backslash +:+ "v"
  else if ((n <? 32) || (n =? 127))%N then backslash +:+ "x" +:+ hex2 n
  else String c "".

Fixpoint escape (f : ascii → string) (s : string) : string :=
  match s with
  | "" => ""
  | String c s' => f c +:+ escape f s'
  end.

Definition quote (s : string) : string := dquote +:+ escape quote_byte s +:+ dquote.

(** The string encoder of [encoding/json] with HTML escaping, which
    [json.Marshal] turns on. *)
Definition json_byte (c : ascii) : string :=
  let n := N_of_ascii c in
  if (n =? 34)%N then backslash +:+ dquote
  else if (n =? 92)%N then backslash +:+ backslash
  else if (n =? 8)%N then backslash +:+ "b"
  else if (n =? 12)%N then backslash +:+ "f"
  else if (n =? 10)%N then backslash +:+ "n"
  else if (n =? 13)%N then backslash +:+ "r"
  else if (n =? 9)%N then backslash +:+ "t"
  else if ((n <? 32) || (n =? 60) || (n =? 62) || (n =? 38))%N
  then backslash +:+ "u00" +:+ hex2 n
  else String c "".

Definition json_quote (s : string) : string :=
  dquote +:+ escape json_byte s +:+ dquote.

(** *** Shortest decimal digits of a positive binary64 [m * 2^e]

    A positive rational is a pair of a numerator and a positive denominator. *)

Definition pow10 (k : Z) : Z := 10 ^ k.

(** [c * 10^k <= num / den] and [num / den <= c * 10^k]. *)
Definition dec_le_frac (c k num den : Z) : bool :=
  if 0 <=? k then c * pow10 k * den <=? num else c * den <=? num * pow10 (- k).
Definition frac_le_dec (num den c k : Z) : bool :=
  if 0 <=? k then num <=? c * pow10 k * den else num * pow10 (- k) <=? c * den.
Definition dec_lt_frac (c k num den : Z) : bool := negb (frac_le_dec num den c k).
Definition frac_lt_dec (num den c k : Z) : bool := negb (dec_le_frac c k num den).

(** The least [p] from [start] on with [num / den < 10^p]. *)
Fixpoint dec_exponent (fuel : nat) (num den p : Z) : Z :=
  match fuel with
  | O => p
  | S fuel' =>
      if frac_lt_dec num den 1 p then p else dec_exponent fuel' num den (p + 1)
  end.

Fixpoint strip_zeros (fuel : nat) (c : Z) : Z :=
  match fuel with
  | O => c
  | S fuel' => if (c mod 10 =? 0) && negb (c =? 0) then strip_zeros fuel' (c / 10) else c
  end.

(** The value and the two ends of its rounding interval, over one
    denominator: the reals between the ends are those that round to the
    value, the ends included when the mantissa is even. *)
Definition rounding_interval (m : positive) (e : Z) : Z * Z * Z * Z :=
  let boundary := (Z.pos m =? 2 ^ 52) && (-1074 <? e) in
  let up := if 2 <=? e then 2 ^ (e - 2) else 1 in
  let den := if 2 <=? e then 1 else 2 ^ (2 - e) in
  let v := 4 * Z.pos m in
  let lo := if boundary then v - 1 else v - 2 in
  (lo * up, v * up, (v + 2) * up, den).

(** The candidate with [n] digits, if one lies in the interval: the nearer of
    the two neighbours of the value, the even one on a tie. *)
Definition candidate (m : positive) (e p n : Z) : option (Z * Z) :=
  let '(lo, v, hi, den) := rounding_interval m e in
  let incl := Z.even (Z.pos m) in
  let k := p - n in
  let a := if 0 <=? k then v else v * pow10 (- k) in
  let b := if 0 <=? k then den * pow10 k else den in
  let f := a / b in
  let r := a - f * b in
  let inside c :=
    if incl then dec_le_frac c k hi den && frac_le_dec lo den c k
    else dec_lt_frac c k hi den && frac_lt_dec lo den c k in
  let pick c := Some (c, k) in
  match inside f, inside (f + 1) with
  | true, true =>
      if 2 * r <? b then pick f
      else if b <? 2 * r then pick (f + 1)
      else if Z.even f then pick f else pick (f + 1)
  | true, false => pick f
  | false, true => pick (f + 1)
  | false, false => None
  end.

Fixpoint shortest_from (fuel : nat) (m : positive) (e p n : Z) : Z * Z :=
  match fuel with
  | O => (4 * Z.pos m, e - 2)
  | S fuel' =>
      match candidate m e p n with
      | Some ck => ck
      | None => shortest_from fuel' m e p (n + 1)
      end
  end.

(** The digits [d] and the position [dp] of the decimal point:
    the value is [0.d * 10^dp]. *)
Definition shortest (m : positive) (e : Z) : string * Z :=
  let '(_, v, _, den) := rounding_interval m e in
  let p := dec_exponent 640 v den (-324) in
  let '(c, k) := shortest_from 17 m e p 1 in
  let digits := pretty (strip_zeros 20 c) in
  (digits, Z.of_nat (String.length (pretty c)) + k).

Definition digit_at (d : string) (i : Z) : string :=
  if (0 <=? i) && (i <? len_string d)
  then String.substring (Z.to_nat i) 1 d else "0".

Fixpoint digits_from (d : string) (i : Z) (count : nat) : string :=
  match count with
  | O => ""
  | S n => digit_at d i +:+ digits_from d (i + 1) n
  end.

(** [%e] and [%f] of [strconv] at the shortest precision. *)
Definition fmtE (d : string) (dp : Z) : string :=
  let exp := dp - 1 in
  let mant := digit_at d 0 +:+
              (if 1 <? len_string d
               then "." +:+ digits_from d 1 (String.length d - 1) else "") in
  let a := Z.abs exp in
  mant +:+ "e" +:+ (if exp <? 0 then "-" else "+") +:+
  (if a <? 10 then "0" else "") +:+ pretty a.

Definition fmtF (d : string) (dp : Z) : string :=
  let prec := Z.max (len_string d - dp) 0 in
  (if 0 <? dp then digits_from d 0 (Z.to_nat dp) else "0") +:+
  (if 0 <? prec then "." +:+ digits_from d dp (Z.to_nat prec) else "").

Definition sign_text (s : bool) : string := if s then "-" else "".

(** [strconv.FormatFloat(v, 'g', -1, 64)], which is [%g]. *)
Definition format_g (v : float64) : string :=
  match v with
  | S754_zero s => sign_text s +:+ "0"
  | S754_infinity s => if s then "-Inf" else "+Inf"
  | S754_nan => "NaN"
  | S754_finite s m e =>
      let '(d, dp) := shortest m e in
      let exp := dp - 1 in
      sign_text s +:+
      (if (exp <? -4) || (6 <=? exp) then fmtE d dp else fmtF d dp)
  end.

Definition float_1e21 : float64 := binary_normalize 53 1024 (10 ^ 21) 0 false.
Definition float_1em6 : float64 :=
  SFdiv 53 1024 (binary_normalize 53 1024 1 0 false)
                (binary_normalize 53 1024 (10 ^ 6) 0 false).

(** The float encoder of [encoding/json]: [%f] unless the magnitude is below
    [1e-6] or at least [1e21], [%e] with a one-digit exponent written without
    its leading zero otherwise. *)
Definition json_number (v : float64) : string :=
  match v with
  | S754_finite s m e =>
      let '(d, dp) := shortest m e in
      let abs := S754_finite false m e in
      sign_text s +:+
      (if SFltb abs float_1em6 || negb (SFltb abs float_1e21)
       then
         let exp := dp - 1 in
         let a := Z.abs exp in
         digit_at d 0 +:+
         (if 1 <? len_string d
          then "." +:+ digits_from d 1 (String.length d - 1) else "") +:+
         "e" +:+ (if exp <? 0 then "-" else "+") +:+ pretty a
       else fmtF d dp)
  | S754_zero s => sign_text s +:+ "0"
  | _ => ""
  end.

End GoRef.

#[export] Program Instance go_ref : GoLib := {|
  fmt_q := GoRef.quote;
  fmt_g := GoRef.format_g;
  json_string := GoRef.json_quote;
  json_float := GoRef.json_number;
|}.
Next Obligation.
  intros s Hs. unfold GoRef.quote. f_equal. f_equal.
  induction s as [|c s IH]; simpl in *; [done|].
  apply andb_prop in Hs as [Hc Hs]. rewrite IH by done.
  unfold GoRef.quote_byte. by rewrite Hc.
Qed.

(** ** Reference implementations of the time and string functions

    [go_time_ref] is a time in UTC by its calendar fields, formatted with the
    one layout that the handlers pass; [go_std_ref] follows [strings] and
    [fmt] on ASCII text. They serve to evaluate the handlers on concrete
    inputs. *)

Module GoRefStd.

Record utc := {
  year : Z;
  month : Z;
  day : Z;
  hour : Z;
  minute : Z;
  second : Z;
}.

Definition is_zero (t : utc) : bool :=
  (year t =? 1) && (month t =? 1) && (day t =? 1)
  && (hour t =? 0) && (minute t =? 0) && (second t =? 0).

Definition pad (width : nat) (n : Z) : string :=
  let digits := fmt_d n in
  repeat_string "0" (width - String.length digits) +:+ digits.

Definition format (t : utc) (layout : string) : string :=
  if String.eqb layout "2006-01-02 15:04:05 UTC" then
    pad 4 (year t) +:+ "-" +:+ pad 2 (month t) +:+ "-" +:+ pad 2 (day t)
      +:+ " " +:+ pad 2 (hour t) +:+ ":" +:+ pad 2 (minute t) +:+ ":"
      +:+ pad 2 (second t) +:+ " UTC"
  else layout.

(** The six bytes that [strings.TrimSpace] removes from ASCII text. *)
Definition is_space (c : ascii) : bool :=
  let n := N_of_ascii c in
  ((9 <=? n) && (n <=? 13) || (n =? 32))%N.

Fixpoint trim_left (s : string) : string :=
  match s with
  | "" => ""
  | String c s' => if is_space c then trim_left s' else s
  end.

Fixpoint trim_right (s : string) : string :=
  match s with
  | "" => ""
  | String c s' =>
      let rest := trim_right s' in
      if is_space c && String.eqb rest "" then "" else String c rest
  end.

Definition trim_space (s : string) : string := trim_right (trim_left s).

Definition lower_byte (c : ascii) : ascii :=
  let n := N_of_ascii c in
  if ((65 <=? n) && (n <=? 90))%N then ascii_of_N (n + 32) else c.

Fixpoint to_lower (s : string) : string :=
  match s with
  | "" => ""
  | String c s' => String (lower_byte c) (to_lower s')
  end.

(** [%v]: a map is written with its keys in byte order. *)
Fixpoint format_v (v : Value) : string :=
  match v with
  | VNil => "<nil>"
  | VBool b => fmt_t b
  | VFloat64 f => GoRef.format_g f
  | VString s => s
  | VSlice items => "[" +:+ strings_Join (map format_v items) " " +:+ "]"
  | VMap m =>
      let entries := map (λ kv, (kv.1, Some (format_v kv.2))) m in
      "map["
        +:+ strings_Join
              (map (λ kv, kv.1 +:+ ":" +:+ default "" kv.2)
                   (merge_sort key_le entries)) " "
        +:+ "]"
  end.

End GoRefStd.

#[export] Instance go_time_ref : GoTime := {|
  Time := GoRefStd.utc;
  time_IsZero := GoRefStd.is_zero;
  time_Format := GoRefStd.format;
|}.

#[export] Instance go_std_ref : GoStd := {|
  strings_TrimSpace := GoRefStd.trim_space;
  strings_ToLower := GoRefStd.to_lower;
  fmt_v := GoRefStd.format_v;
|}.

(** ** A client and a request for concrete inputs *)

(** A client that knows one run, whose plan and apply logs are [logs], and
    nothing else; a request with the given arguments and no other. *)
Definition client_of_run (run : Run.t (H:=go_time_ref)) (logs : string)
  : Client.t (H:=go_time_ref) :=
  {| Client.Runs_ReadWithOptions := λ _ _, ok run;
     Client.Plans_ReadJSONOutput := λ _, failed "not available";
     Client.Plans_Logs := λ _, ok (ok logs);
     Client.Applies_Logs := λ _, ok (ok logs);
     Client.Workspaces_Read := λ _ _, failed "not found";
     Client.Workspaces_Create := λ _ _, (failed "refused", false);
     Client.StateVersions_ReadCurrentWithOptions := λ _, failed "not found";
     Client.StateVersions_ListOutputs := λ _, failed "not found";
     Client.StateVersions_Download := λ _, failed "not found" |}.

Definition request_of (arguments : list (string * string)) : CallToolRequest.t :=
  let find key :=
    snd <$> List.find (λ kv, String.eqb kv.1 key) arguments in
  {| CallToolRequest.RequireString := λ key,
       match find key with
       | Some v => ok v
       | None => failed "required argument not found"
       end;
     CallToolRequest.GetString := λ key defaultValue,
       default defaultValue (find key) |}.

(** ** Definitions for the statements

    Predicates and functions that the theorems below are stated with; none
    of them is part of the program. *)

(** The classification table in the words of the specification: a single
    tag stands for itself, the two replace pairs have their own texts, and
    every other sequence is the comma-joined list of its tags. *)
Definition classify_table (actions : list string) : string :=
  match actions with
  | [a] => a
  | _ =>
      if bool_decide (actions = ["delete"; "create"]) then "replace (delete, create)"
      else if bool_decide (actions = ["create"; "delete"]) then "replace (create, delete)"
      else strings_Join actions ", "
  end.

(** Whether the separator of the fallback join occurs in a text. *)
Fixpoint has_comma (s : string) : bool :=
  match s with
  | "" => false
  | String _ s' => String.prefix ", " s || has_comma s'
  end.



(** Byte order on strings: Go's [<] and [<=] on [string]. *)
Definition str_lt (a b : string) : Prop := String.ltb a b = true.
Definition str_le (a b : string) : Prop := String.leb a b = true.

(** The inner loop of [sortStrings] on the prefix read backwards: the
    element [x] moves left past every greater element. *)
Fixpoint sink (r : list string) (x : string) : list string :=
  match r with
  | [] => [x]
  | y :: r' => if String.ltb x y then y :: sink r' x else x :: y :: r'
  end.

(** What the two locals of [mergeKeys] satisfy between iterations: [keys]
    has no repetition and [seen] marks exactly its elements. *)
Definition keys_inv (st : gmap string bool * list string) : Prop :=
  NoDup st.2 ∧ ∀ k, default false (st.1 !! k) = true ↔ k ∈ st.2.

(** Induction on values, through the items of a slice and the entries of a
    map. *)
Fixpoint Value_nested_ind (P : Value → Prop)
    (Hnil : P VNil) (Hbool : ∀ b, P (VBool b)) (Hfloat : ∀ v, P (VFloat64 v))
    (Hstring : ∀ s, P (VString s))
    (Hslice : ∀ items, Forall P items → P (VSlice items))
    (Hmap : ∀ m, Forall (λ kv, P kv.2) m → P (VMap m))
    (v : Value) {struct v} : P v :=
  let ind := Value_nested_ind P Hnil Hbool Hfloat Hstring Hslice Hmap in
  match v with
  | VNil => Hnil
  | VBool b => Hbool b
  | VFloat64 f => Hfloat f
  | VString s => Hstring s
  | VSlice items =>
      Hslice items
        ((fix go (l : list Value) : Forall P l :=
            match l with
            | [] => @List.Forall_nil _ _
            | x :: l' => @List.Forall_cons _ P x l' (ind x) (go l')
            end) items)
  | VMap m =>
      Hmap m
        ((fix go (l : gomap) : Forall (λ kv, P kv.2) l :=
            match l with
            | [] => @List.Forall_nil _ _
            | kv :: l' => @List.Forall_cons _ (λ kv, P kv.2) kv l' (ind kv.2) (go l')
            end) m)
  end.

(** A value as [encoding/json] decodes one: every number in it is finite. *)
Fixpoint decoded (v : Value) : bool :=
  match v with
  | VFloat64 f => float64_is_finite f
  | VSlice items => forallb decoded items
  | VMap m => forallb (λ kv, decoded kv.2) m
  | _ => true
  end.

(** The line of one key in the words of the specification: [+] for a key of
    [after] only, [-] for a key of [before] only, [~] for a key of both whose
    values have different serializations, nothing for a key of both whose
    values have the same; the key is indented by [depth] units of two spaces
    and the values are formatted at [depth+1]. *)
Definition diffLine_spec `{GoLib} (before after : gomap) (depth : Z)
    (key : string) : string :=
  let indent := repeat_string "  " (Z.to_nat depth) in
  match map_index before key, map_index after key with
  | None, Some aVal =>
      "+ " +:+ indent +:+ key +:+ " = " +:+ formatValue aVal (depth + 1) +:+ nl
  | Some bVal, None =>
      "- " +:+ indent +:+ key +:+ " = " +:+ formatValue bVal (depth + 1) +:+ nl
  | Some bVal, Some aVal =>
      if bool_decide (json_Marshal bVal = json_Marshal aVal) then ""
      else "~ " +:+ indent +:+ key +:+ " = " +:+ formatValue bVal (depth + 1)
             +:+ " -> " +:+ formatValue aVal (depth + 1) +:+ nl
  | None, None => ""
  end.

(** Whether a value is a map. *)
Definition is_map (v : Value) : bool :=
  match v with VMap _ => true | _ => false end.

(** The cap of [buildAttributeDiff] on a composed body. *)
Definition capped (body : string) : string :=
  if 4000 <? len_string body
  then slice_to body 4000 +:+ truncationMarker
  else body.

(** The lines that [writeMapValues] writes at depth 0. *)
Definition map_lines `{GoLib} (prefix : string) (m : gomap) : string :=
  strings_Join
    (map (λ kv, prefix +:+ kv.1 +:+ " = " +:+ formatValue kv.2 1 +:+ nl) m) "".

(** The same decoded value under two iteration orders of its maps: a map is
    the same as any reordering of its entries, entry by entry the same. *)
Inductive same_value : Value → Value → Prop :=
| same_nil : same_value VNil VNil
| same_bool b : same_value (VBool b) (VBool b)
| same_float v : same_value (VFloat64 v) (VFloat64 v)
| same_string s : same_value (VString s) (VString s)
| same_slice l1 l2 :
    Forall2 same_value l1 l2 → same_value (VSlice l1) (VSlice l2)
| same_map m1 m m2 :
    m1 ≡ₚ m →
    Forall2 (λ kv1 kv2, kv1.1 = kv2.1 ∧ same_value kv1.2 kv2.2) m m2 →
    same_value (VMap m1) (VMap m2).

(** Two records with the same address, actions and reason and the same
    snapshots. *)
Definition same_record (rc1 rc2 : resourceChange) : Prop :=
  Address rc1 = Address rc2 ∧
  Actions (Change rc1) = Actions (Change rc2) ∧
  ActionReason rc1 = ActionReason rc2 ∧
  same_value (Before (Change rc1)) (Before (Change rc2)) ∧
  same_value (After (Change rc1)) (After (Change rc2)).

(** A value whose maps have pairwise distinct keys, as every Go map has. *)
Fixpoint distinct_keys (v : Value) : bool :=
  match v with
  | VSlice items => forallb distinct_keys items
  | VMap m =>
      bool_decide (NoDup (map_keys m)) && forallb (λ kv, distinct_keys kv.2) m
  | _ => true
  end.

(** The number of records that satisfy a test. *)
Definition count_where (test : resourceChange → bool)
    (changes : list resourceChange) : Z :=
  len (filter (λ rc, test rc = true) changes).

(** Whether the action list of a record is exactly [actions]. *)
Definition has_actions (actions : list string) (rc : resourceChange) : bool :=
  bool_decide (Actions (Change rc) = actions).

(** Whether a record is classified as one of the two replace texts. *)
Definition is_replace (rc : resourceChange) : bool :=
  let a := summarizeActions (Actions (Change rc)) in
  String.eqb a "replace (delete, create)" || String.eqb a "replace (create, delete)".

(** Whether the action list of a record is [no-op] alone or [read] alone. *)
Definition is_unchanged (rc : resourceChange) : bool :=
  has_actions ["no-op"] rc || has_actions ["read"] rc.

(** Whether [countActions] counts a record in one of its five buckets. *)
Definition is_counted (rc : resourceChange) : bool :=
  has_actions ["create"] rc || has_actions ["update"] rc
  || has_actions ["delete"] rc || is_replace rc || is_unchanged rc.

(** The counters of [countActions] after some more records. *)
Definition add_counts (c : actionCounts) (a u d r n : Z) : actionCounts :=
  {| adds := adds c + a; updates := updates c + u; destroys := destroys c + d;
     replaces := replaces c + r; noops := noops c + n |}.

(** One for a record that passes a test, nought for one that does not. *)
Definition b2z (b : bool) : Z := if b then 1 else 0.

(** A text that ends with a line feed. *)
Definition ends_with_nl (s : string) : Prop := ∃ line, s = line +:+ nl.

(** An output with its value blanked when it is marked sensitive; a state
    version and a client whose outputs are so blanked. *)
Definition redact (output : StateVersionOutput.t) : StateVersionOutput.t :=
  if StateVersionOutput.Sensitive output then
    {| StateVersionOutput.Name := StateVersionOutput.Name output;
       StateVersionOutput.Sensitive := true;
       StateVersionOutput.Type_ := StateVersionOutput.Type_ output;
       StateVersionOutput.Value := VNil |}
  else output.

Definition redact_state `{GoTime} (sv : StateVersion.t) : StateVersion.t :=
  {| StateVersion.ID := StateVersion.ID sv;
     StateVersion.CreatedAt := StateVersion.CreatedAt sv;
     StateVersion.JSONDownloadURL := StateVersion.JSONDownloadURL sv;
     StateVersion.Serial := StateVersion.Serial sv;
     StateVersion.Status := StateVersion.Status sv;
     StateVersion.VCSCommitSHA := StateVersion.VCSCommitSHA sv;
     StateVersion.VCSCommitURL := StateVersion.VCSCommitURL sv;
     StateVersion.ResourcesProcessed := StateVersion.ResourcesProcessed sv;
     StateVersion.TerraformVersion := StateVersion.TerraformVersion sv;
     StateVersion.Resources := StateVersion.Resources sv;
     StateVersion.Outputs := map redact (StateVersion.Outputs sv) |}.

Definition redact_client `{GoTime} (c : Client.t) : Client.t :=
  {| Client.Runs_ReadWithOptions := Client.Runs_ReadWithOptions c;
     Client.Plans_ReadJSONOutput := Client.Plans_ReadJSONOutput c;
     Client.Plans_Logs := Client.Plans_Logs c;
     Client.Applies_Logs := Client.Applies_Logs c;
     Client.Workspaces_Read := Client.Workspaces_Read c;
     Client.Workspaces_Create := Client.Workspaces_Create c;
     Client.StateVersions_ReadCurrentWithOptions := λ id,
       match Client.StateVersions_ReadCurrentWithOptions c id with
       | ok sv => ok (redact_state sv)
       | failed err => failed err
       end;
     Client.StateVersions_ListOutputs := λ id,
       match Client.StateVersions_ListOutputs c id with
       | ok (Some items) => ok (Some (map redact items))
       | other => other
       end;
     Client.StateVersions_Download := Client.StateVersions_Download c |}.

(** What holds of the options that reach [Workspaces.Create]. *)
Definition valid_options (o : WorkspaceCreateOptions.t) : Prop :=
  Forall (λ tag, Tag.Name tag ≠ "") (WorkspaceCreateOptions.Tags o) ∧
  WorkspaceCreateOptions.ExecutionMode o
    ∈ [None; Some "local"; Some "agent"; Some "remote"] ∧
  WorkspaceCreateOptions.SourceName o = Some "terraform-mcp-server" ∧
  WorkspaceCreateOptions.Description o ≠ Some "" ∧
  WorkspaceCreateOptions.TerraformVersion o ≠ Some "" ∧
  WorkspaceCreateOptions.WorkingDirectory o ≠ Some "" ∧
  WorkspaceCreateOptions.Project o ≠ Some {| Project.ID := "" |} ∧
  match WorkspaceCreateOptions.VCSRepo o with
  | None => True
  | Some repo =>
      ∃ identifier token,
        identifier ≠ "" ∧ token ≠ "" ∧
        VCSRepoOptions.Identifier repo = Some identifier ∧
        VCSRepoOptions.OAuthTokenID repo = Some token ∧
        VCSRepoOptions.Branch repo ≠ Some ""
  end.

(** ** Facts about strings, lists of keys and 64-bit integers *)

Section Strings.

Lemma str_app_nil_l (s : string) : "" +:+ s = s.
Proof. reflexivity. Qed.

Lemma str_app_cons (c : ascii) (s1 s2 : string) :
  String c s1 +:+ s2 = String c (s1 +:+ s2).
Proof. reflexivity. Qed.

Lemma str_app_nil_r (s : string) : s +:+ "" = s.
Proof. induction s; rewrite ?str_app_cons; [done | by f_equal]. Qed.

Lemma str_app_assoc (s1 s2 s3 : string) : (s1 +:+ s2) +:+ s3 = s1 +:+ (s2 +:+ s3).
Proof. induction s1; rewrite ?str_app_cons; [done | by f_equal]. Qed.

Lemma str_length_app (s1 s2 : string) :
  String.length (s1 +:+ s2) = (String.length s1 + String.length s2)%nat.
Proof. induction s1; rewrite ?str_app_cons; simpl; [done | by f_equal]. Qed.

(** [s[:n]] is a prefix of [s], of [n] bytes when [s] has that many. *)
Lemma slice_to_split (s : string) (n : nat) :
  (n ≤ String.length s)%nat →
  ∃ rest, s = slice_to s n +:+ rest ∧ String.length (slice_to s n) = n.
Proof.
  unfold slice_to. revert n. induction s as [|c s IH]; intros [|n] Hn; simpl in *.
  - by exists "".
  - lia.
  - by exists (String c s).
  - destruct (IH n) as (rest & Hs & Hl); [lia|].
    exists rest. split; [|by rewrite Hl].
    transitivity (String c (String.substring 0 n s +:+ rest)); [by f_equal | done].
Qed.

Lemma int_add_small (a b : Z) :
  - 2 ^ 63 ≤ a + b < 2 ^ 63 → int_add a b = a + b.
Proof.
  intros Hr. unfold int_add, int_wrap.
  rewrite Z.mod_small by lia. lia.
Qed.

End Strings.

(** ** The action classifier *)

Section Classifier.

Ltac case_eqb :=
  repeat match goal with
    | |- context [String.eqb ?a ?b] =>
        destruct (String.eqb_spec a b); simplify_eq/=; try done
    end.

(** C3. [summarizeActions] follows the classification table on every action
    list: a single tag classifies to itself, [delete, create] and
    [create, delete] to their two distinct replace texts, and every other list
    of several tags to the comma-joined list of its tags. *)
Theorem summarizeActions_table :
  (∀ actions, summarizeActions actions = classify_table actions) ∧
  (∀ a, summarizeActions [a] = a) ∧
  summarizeActions ["delete"; "create"] = "replace (delete, create)" ∧
  summarizeActions ["create"; "delete"] = "replace (create, delete)" ∧
  summarizeActions ["delete"; "create"] ≠ summarizeActions ["create"; "delete"] ∧
  (∀ a b rest, a :: b :: rest ≠ ["delete"; "create"] →
               a :: b :: rest ≠ ["create"; "delete"] →
     summarizeActions (a :: b :: rest) = strings_Join (a :: b :: rest) ", ").
Proof.
  assert (Hone : ∀ a, summarizeActions [a] = a).
  { intros a. unfold summarizeActions. by case_eqb. }
  assert (Hmany : ∀ a b rest, a :: b :: rest ≠ ["delete"; "create"] →
               a :: b :: rest ≠ ["create"; "delete"] →
     summarizeActions (a :: b :: rest) = strings_Join (a :: b :: rest) ", ").
  { intros a b [|c rest] Hdc Hcd; [|done].
    unfold summarizeActions. by case_eqb. }
  split_and!; try done.
  intros [|a [|b rest]]; [done | apply Hone |].
  unfold classify_table. repeat case_bool_decide; simplify_eq; try done.
  by apply Hmany.
Qed.

(** The witness of C3: the three-tag list [create, update, delete]. *)
Lemma summarizeActions_table_witness :
  summarizeActions ["create"; "update"; "delete"] = "create, update, delete".
Proof.
  pose proof summarizeActions_table as (_ & _ & _ & _ & _ & Hmany).
  by rewrite Hmany.
Defined.

(** The final [strings.Join] is what a fallback list classifies to. *)
Lemma summarizeActions_fallback (actions : list string) :
  fallback actions = true → summarizeActions actions = strings_Join actions ", ".
Proof.
  intros Hf%bool_decide_eq_true. unfold named_actions in Hf.
  destruct actions as [|a [|b [|c rest]]]; try done.
  - unfold summarizeActions. by case_eqb.
  - unfold summarizeActions.
    case_eqb; destruct Hf; rewrite !elem_of_cons; auto 10.
Qed.

Lemma switch_string_default (cases : list (string * string)) (d c : string) :
  c ∉ cases.*1 → switch_string cases d c = d.
Proof.
  induction cases as [|[k r] cases IH]; simpl; [done|].
  rewrite not_elem_of_cons. intros [Hk Hc].
  destruct (String.eqb_spec c k) as [->|_]; [done | by apply IH].
Qed.

(** C9. [formatActionReason] maps each code of its closed table to the
    sentence of that code, among them the four codes for a tainted resource,
    a missing resource configuration, a stale [for_each] key and unknown
    configuration values, and returns every other string unchanged. *)
Theorem formatActionReason_table :
  (∀ code sentence, (code, sentence) ∈ actionReasons →
     formatActionReason code = sentence) ∧
  (∀ reason, reason ∉ actionReasons.*1 → formatActionReason reason = reason) ∧
  formatActionReason "replace_because_tainted"
    = "resource is tainted, so must be replaced" ∧
  formatActionReason "delete_because_no_resource_config"
    = "no resource configuration found" ∧
  formatActionReason "delete_because_each_key"
    = "for_each key not in current configuration" ∧
  formatActionReason "read_because_config_unknown"
    = "configuration values unknown until apply".
Proof.
  split_and!; try done.
  - intros code sentence Hin. unfold actionReasons in Hin.
    repeat (apply elem_of_cons in Hin as [Heq|Hin]; [by simplify_eq|]).
    by apply elem_of_nil in Hin.
  - intros reason Hout. by apply switch_string_default.
Qed.

(** The witness of C9: a code of the table and a string outside it. *)
Lemma formatActionReason_table_witness :
  formatActionReason "replace_by_request" = "replacement was requested" ∧
  formatActionReason "moved_by_refactoring" = "moved_by_refactoring".
Proof.
  pose proof formatActionReason_table as (Hin & Hout & _).
  split.
  - apply Hin. unfold actionReasons. rewrite !elem_of_cons. auto.
  - apply Hout. unfold actionReasons. simpl.
    rewrite !not_elem_of_cons. split_and!; try done. apply not_elem_of_nil.
Defined.

Lemma has_comma_app (a r : string) : has_comma (a +:+ ", " +:+ r) = true.
Proof.
  induction a as [|c a IH].
  - rewrite str_app_nil_l. simpl. by destruct r.
  - rewrite str_app_cons. cbn [has_comma]. rewrite IH. apply orb_true_r.
Qed.

(** A fallback classification is none of the five single tags. *)
Lemma fallback_not_single (actions : list string) :
  fallback actions = true →
  summarizeActions actions ∉ ["create"; "update"; "delete"; "no-op"; "read"].
Proof.
  intros Hf. rewrite summarizeActions_fallback by done.
  apply bool_decide_eq_true in Hf. unfold named_actions in Hf.
  rewrite !not_elem_of_cons in Hf. destruct Hf as (?&?&?&?&?&?&?&_).
  destruct actions as [|a [|b rest]].
  - rewrite !not_elem_of_cons. split_and!; try done. apply not_elem_of_nil.
  - simpl. rewrite !not_elem_of_cons. split_and!; try congruence.
    apply not_elem_of_nil.
  - assert (Hc : has_comma (strings_Join (a :: b :: rest) ", ") = true)
      by apply has_comma_app.
    rewrite !not_elem_of_cons.
    split_and!; try (intros Heq; rewrite Heq in Hc; done).
    apply not_elem_of_nil.
Qed.

Lemma countAction_other (c : actionCounts) (a : string) :
  a ∉ ["create"; "update"; "delete"; "no-op"; "read";
       "replace (delete, create)"; "replace (create, delete)"] →
  countAction c a = c.
Proof.
  rewrite !not_elem_of_cons. intros (?&?&?&?&?&?&?&_).
  unfold countAction. by case_eqb.
Qed.

(** C10, as amended. Each record moves the tally by [countAction] on its
    classification; [read] and [no-op] add one to [noops] and to nothing else;
    a fallback classification adds to no count unless its text is one of the
    two replace texts; and there are record lists whose five counts sum to
    less than the number of records. *)
Theorem countActions_buckets :
  (∀ changes rc,
     countActions (changes ++ [rc])
     = countAction (countActions changes) (summarizeActions (Actions (Change rc)))) ∧
  (∀ c a, a = "read" ∨ a = "no-op" →
     countAction c a
     = {| adds := adds c; updates := updates c; destroys := destroys c;
          replaces := replaces c; noops := int_add (noops c) 1 |}) ∧
  (∀ c actions,
     fallback actions = true →
     summarizeActions actions ≠ "replace (delete, create)" →
     summarizeActions actions ≠ "replace (create, delete)" →
     countAction c (summarizeActions actions) = c) ∧
  (∃ changes,
     let c := countActions changes in
     adds c + updates c + destroys c + replaces c + noops c < len changes).
Proof.
  split_and!.
  - intros changes rc. unfold countActions. by rewrite foldl_snoc.
  - by intros c a [-> | ->].
  - intros c actions Hf Hdc Hcd. apply countAction_other.
    pose proof (fallback_not_single actions Hf) as Hs.
    rewrite !not_elem_of_cons in Hs. destruct Hs as (?&?&?&?&?&_).
    rewrite !not_elem_of_cons. split_and!; try done. apply not_elem_of_nil.
  - by exists [record "aws_instance.a" ["forget"] VNil VNil ""].
Qed.

(** The witness of C10: a [read] record, and the unknown tag [forget]. *)
Lemma countActions_buckets_witness :
  noops (countActions [record "data.x" ["read"] VNil VNil ""]) = 1 ∧
  countActions [record "aws_instance.a" ["forget"] VNil VNil ""]
  = countActions [].
Proof.
  pose proof countActions_buckets as (Hstep & Hnoop & Hother & _).
  split.
  - pose proof (Hstep [] (record "data.x" ["read"] VNil VNil "")) as E.
    simpl in E. rewrite E, (Hnoop _ "read"); [done | by left].
  - pose proof (Hstep [] (record "aws_instance.a" ["forget"] VNil VNil "")) as E.
    simpl in E. rewrite E. by apply (Hother _ ["forget"]).
Defined.

(** The counterexample to C10 as stated: the single unknown tag
    [replace (delete, create)] reaches the fallback join, and the record is
    counted as a replace. *)
Lemma countActions_fallback_counted :
  let rc := record "aws_instance.a" ["replace (delete, create)"] VNil VNil "" in
  fallback (Actions (Change rc)) = true ∧
  summarizeActions (Actions (Change rc))
  = strings_Join (Actions (Change rc)) ", " ∧
  countActions [rc]
  = {| adds := 0; updates := 0; destroys := 0; replaces := 1; noops := 0 |}.
Proof. done. Qed.

(** The symbol table of [actionSymbol]: [+] for create, [-] for delete, [~]
    for update, [-/+] for either replace text, [<=] for read, and a single
    space for everything else. *)
Theorem actionSymbol_table :
  actionSymbol "create" = "+" ∧
  actionSymbol "delete" = "-" ∧
  actionSymbol "update" = "~" ∧
  actionSymbol "replace (delete, create)" = "-/+" ∧
  actionSymbol "replace (create, delete)" = "-/+" ∧
  actionSymbol "read" = "<=" ∧
  (∀ action,
     action ∉ ["create"; "delete"; "update"; "replace (delete, create)";
               "replace (create, delete)"; "read"] →
     actionSymbol action = " ").
Proof.
  split_and!; try done.
  intros action. rewrite !not_elem_of_cons. intros (?&?&?&?&?&?&_).
  unfold actionSymbol. by case_eqb.
Qed.

(** The witness of the symbol table: the action [no-op]. *)
Lemma actionSymbol_table_witness : actionSymbol "no-op" = " ".
Proof.
  apply actionSymbol_table.
  rewrite !not_elem_of_cons. split_and!; try done. apply not_elem_of_nil.
Defined.

End Classifier.

(** ** The value formatter *)

Section Formatter.
Context `{GoLib}.

Lemma len_string_gt (s : string) (n : Z) :
  0 ≤ n → (Z.to_nat n < String.length s)%nat → (n <? len_string s) = true.
Proof. unfold len_string. rewrite Z.ltb_lt. lia. Qed.

Lemma len_string_le (s : string) (n : Z) :
  0 ≤ n → (String.length s ≤ Z.to_nat n)%nat → (n <? len_string s) = false.
Proof. unfold len_string. rewrite Z.ltb_ge. lia. Qed.

(** C5, as amended. A string of at most 200 bytes is rendered whole by [%q];
    a longer one is rendered as [%q] of its first 200 bytes followed, after
    the closing quote, by the 15 bytes of [... (truncated)], which makes 217
    bytes when the prefix needs no escaping. *)
Theorem formatValue_string (s : string) (depth : Z) :
  ((String.length s ≤ 200)%nat → formatValue (VString s) depth = fmt_q s) ∧
  ((200 < String.length s)%nat →
     ∃ prefix rest,
       s = prefix +:+ rest ∧ String.length prefix = 200%nat ∧
       formatValue (VString s) depth = fmt_q prefix +:+ "... (truncated)" ∧
       String.length (formatValue (VString s) depth)
       = (String.length (fmt_q prefix) + 15)%nat ∧
       (plain prefix = true →
        String.length (formatValue (VString s) depth) = 217%nat)).
Proof.
  split; intros Hlen; cbn [formatValue].
  - by rewrite (len_string_le s 200).
  - destruct (slice_to_split s 200) as (rest & Hs & Hp); [lia|].
    rewrite (len_string_gt s 200) by done. exists (slice_to s 200), rest.
    split_and!; try done.
    + by rewrite str_length_app.
    + intros Hplain. rewrite fmt_q_plain by done.
      rewrite !str_length_app, Hp. done.
Qed.

(** C6. An empty array formats as [[]]; a non-empty array deeper than 2
    collapses to its item count; otherwise every item is formatted at
    [depth+1], the results are joined with a comma and a space, and the
    200-byte threshold is tested on the joined text: above it the array
    collapses to its item count, up to it the join stands in brackets. An
    item that is a long string has been cut to its own 200 bytes before the
    join is measured, and an array of one such string collapses. *)
Theorem formatValue_slice (items : list Value) (depth : Z) :
  let collapsed := "[..." +:+ fmt_d (len items) +:+ " items]" in
  let joined :=
    strings_Join (map (λ item, formatValue item (depth + 1)) items) ", " in
  - 2 ^ 63 ≤ depth →
  formatValue (VSlice []) depth = "[]" ∧
  (items ≠ [] → 2 < depth → formatValue (VSlice items) depth = collapsed) ∧
  (items ≠ [] → depth ≤ 2 → (200 < String.length joined)%nat →
     formatValue (VSlice items) depth = collapsed) ∧
  (items ≠ [] → depth ≤ 2 → (String.length joined ≤ 200)%nat →
     formatValue (VSlice items) depth = "[" +:+ joined +:+ "]") ∧
  (∀ s, (200 < String.length s)%nat → plain (slice_to s 200) = true →
     depth ≤ 2 → formatValue (VSlice [VString s]) depth = "[...1 items]").
Proof.
  intros collapsed joined Hdepth.
  assert (Hlen : items ≠ [] → (len items =? 0) = false).
  { intros Hne. apply Z.eqb_neq. unfold len. destruct items; [done | simpl; lia]. }
  split_and!; [done | | | |].
  - intros Hne Hd. cbn [formatValue]. rewrite Hlen by done.
    by apply Z.ltb_lt in Hd as ->.
  - intros Hne Hd Hj. cbn [formatValue]. rewrite Hlen by done.
    rewrite int_add_small by lia. apply Z.ltb_ge in Hd as ->.
    fold joined. by rewrite (len_string_gt joined 200).
  - intros Hne Hd Hj. cbn [formatValue]. rewrite Hlen by done.
    rewrite int_add_small by lia. apply Z.ltb_ge in Hd as ->.
    fold joined. by rewrite (len_string_le joined 200).
  - intros s Hs Hplain Hd.
    cbn [formatValue map strings_Join].
    change (len [VString s] =? 0) with false. cbv iota.
    apply Z.ltb_ge in Hd as ->.
    rewrite (len_string_gt s 200), fmt_q_plain by done.
    rewrite len_string_gt; [done | done |].
    rewrite !str_length_app.
    destruct (slice_to_split s 200) as (? & _ & ->); [lia|]. simpl. lia.
Qed.

(** An empty object formats as [{}]; a non-empty object deeper than 2
    collapses to its key count; otherwise the object is serialized, and it
    collapses to its key count when serialization fails or gives more than
    200 bytes, and is shown as serialized otherwise. *)
Theorem formatValue_map (m : gomap) (depth : Z) :
  let collapsed := "{..." +:+ fmt_d (len m) +:+ " keys}" in
  formatValue (VMap []) depth = "{}" ∧
  (m ≠ [] → 2 < depth → formatValue (VMap m) depth = collapsed) ∧
  (m ≠ [] → depth ≤ 2 → json_Marshal (VMap m) = None →
     formatValue (VMap m) depth = collapsed) ∧
  (∀ s, m ≠ [] → depth ≤ 2 → json_Marshal (VMap m) = Some s →
     formatValue (VMap m) depth
     = if 200 <? len_string s then collapsed else s).
Proof.
  intros collapsed.
  assert (Hlen : m ≠ [] → (len m =? 0) = false).
  { intros Hne. apply Z.eqb_neq. unfold len. destruct m; [done | simpl; lia]. }
  split_and!; [done | | |].
  - intros Hne Hd. cbn [formatValue]. rewrite Hlen by done.
    by apply Z.ltb_lt in Hd as ->.
  - intros Hne Hd Hj. cbn [formatValue] in *. rewrite Hlen by done.
    apply Z.ltb_ge in Hd as ->. by rewrite Hj.
  - intros s Hne Hd Hj. cbn [formatValue] in *. rewrite Hlen by done.
    apply Z.ltb_ge in Hd as ->. by rewrite Hj.
Qed.

End Formatter.

(** The witness of C5: 201 letters, and the two-letter string [ab]. *)
Lemma formatValue_string_witness :
  formatValue (VString "ab") 1 = fmt_q "ab" ∧
  ∃ prefix rest,
    repeat_string "a" 201 = prefix +:+ rest ∧ String.length prefix = 200%nat ∧
    formatValue (VString (repeat_string "a" 201)) 1
    = fmt_q prefix +:+ "... (truncated)".
Proof.
  split.
  - apply (proj1 (formatValue_string "ab" 1)). simpl. lia.
  - destruct (proj2 (formatValue_string (repeat_string "a" 201) 1))
      as (prefix & rest & Hs & Hp & Hf & _); [vm_compute; lia|].
    by exists prefix, rest.
Defined.

(** The counterexample to C5 as stated: the rendering of a string of 201
    letters is 217 bytes long, more than 204, and its marker stands after the
    closing quote. *)
Lemma formatValue_string_longer_than_204 :
  let s := repeat_string "a" 201 in
  formatValue (H:=go_ref) (VString s) 1
  = dquote +:+ repeat_string "a" 200 +:+ dquote +:+ "... (truncated)" ∧
  String.length (formatValue (H:=go_ref) (VString s) 1) = 217%nat ∧
  ¬ (String.length (formatValue (H:=go_ref) (VString s) 1) ≤ 204)%nat.
Proof. split_and!; [by vm_compute | by vm_compute | vm_compute; lia]. Qed.

(** The witness of the object rule: a one-key object at depth 1 and at
    depth 3. *)
Lemma formatValue_map_witness :
  let m := [("a", num 1)] in
  formatValue (VMap m) 1 = "{" +:+ dquote +:+ "a" +:+ dquote +:+ ":1}" ∧
  formatValue (VMap m) 3 = "{...1 keys}".
Proof.
  intros m. split.
  - destruct (formatValue_map m 1) as (_ & _ & _ & Hjson).
    by rewrite (Hjson ("{" +:+ dquote +:+ "a" +:+ dquote +:+ ":1}")).
  - destruct (formatValue_map m 3) as (_ & Hdeep & _).
    by rewrite Hdeep.
Defined.

(** The witness of C6: three small numbers at depth 1, and the same at
    depth 3. *)
Lemma formatValue_slice_witness :
  let items := [VFloat64 (int64_to_float64 1); VFloat64 (int64_to_float64 2);
                VFloat64 (int64_to_float64 3)] in
  formatValue (VSlice items) 1 = "[1, 2, 3]" ∧
  formatValue (VSlice items) 3 = "[...3 items]".
Proof.
  intros items. split.
  - destruct (formatValue_slice items 1) as (_ & _ & _ & Hjoin & _); [done|].
    rewrite Hjoin; [by vm_compute | done | done | vm_compute; lia].
  - destruct (formatValue_slice items 3) as (_ & Hdeep & _); [done|].
    rewrite Hdeep; [by vm_compute | done | done].
Defined.

(** ** Numbers *)

Section Numbers.





















End Numbers.

Section NumberFormat.
Context `{GoLib}.


End NumberFormat.



(** ** The tree differ *)

Section Sorting.

Lemma str_lt_le (a b : string) : str_lt a b → str_le a b.
Proof.
  unfold str_lt, str_le, String.ltb, String.leb.
  by destruct (String.compare a b); simpl.
Qed.

Lemma str_nlt_le (a b : string) : String.ltb a b = false → str_le b a.
Proof.
  unfold str_le, String.ltb, String.leb.
  rewrite (String.compare_antisym a b).
  by destruct (String.compare b a); simpl.
Qed.

Lemma str_le_ne_lt (a b : string) : str_le a b → a ≠ b → str_lt a b.
Proof.
  unfold str_lt, str_le, String.ltb, String.leb.
  destruct (String.compare a b) eqn:Hc; simpl; try done.
  by apply String.compare_eq_iff in Hc.
Qed.

Lemma str_le_trans (a b c : string) : str_le a b → str_le b c → str_le a c.
Proof.
  unfold str_le. intros Hab%Is_true_true Hbc%Is_true_true.
  apply Is_true_true. by apply (transitivity (R:=String.le) Hab Hbc).
Qed.

Lemma sink_length (r : list string) (x : string) :
  length (sink r x) = S (length r).
Proof.
  induction r as [|y r IH]; simpl; [done|].
  destruct (String.ltb x y); simpl; by rewrite ?IH.
Qed.

Lemma sink_perm (r : list string) (x : string) : sink r x ≡ₚ x :: r.
Proof.
  induction r as [|y r IH]; simpl; [done|].
  destruct (String.ltb x y); [|done].
  rewrite IH. apply Permutation_swap.
Qed.

Lemma sortStrings_inner_sink (r : list string) (x : string) (suf : list string) :
  sortStrings_inner (reverse r ++ x :: suf) (length r) = reverse (sink r x) ++ suf.
Proof.
  revert suf. induction r as [|y r IH]; intros suf; [done|].
  cbn [length sortStrings_inner sink].
  rewrite reverse_cons, <- (assoc_L (++)). cbn [app].
  assert (Hj' : (reverse r ++ y :: x :: suf) !! length r = Some y).
  { apply list_lookup_middle. by rewrite length_reverse. }
  assert (Hj : (reverse r ++ y :: x :: suf) !! S (length r) = Some x).
  { rewrite lookup_app_r; rewrite length_reverse; [|lia].
    by replace (S (length r) - length r)%nat with 1%nat by lia. }
  rewrite Hj, Hj'. destruct (String.ltb x y).
  - replace (<[length r:=x]> (<[S (length r):=y]> (reverse r ++ y :: x :: suf)))
      with (reverse r ++ x :: y :: suf).
    + rewrite IH, reverse_cons. by rewrite <- (assoc_L (++)).
    + rewrite <- (length_reverse r) at 1 2.
      rewrite <- (Nat.add_1_r (length (reverse r))), insert_app_r.
      rewrite <- (Nat.add_0_r (length (reverse r))) at 1. by rewrite insert_app_r.
  - rewrite !reverse_cons. by rewrite <- !(assoc_L (++)).
Qed.

(** [sortStrings] is insertion sort. *)
Lemma sortStrings_sink (s : list string) :
  sortStrings s = reverse (foldl sink [] s).
Proof.
  assert (Hloop : ∀ rest acc,
    foldl sortStrings_inner (reverse acc ++ rest) (seq (length acc) (length rest))
    = reverse (foldl sink acc rest)).
  { induction rest as [|x rest IH]; intros acc; simpl.
    - by rewrite (right_id_L [] (++)).
    - rewrite sortStrings_inner_sink.
      rewrite <- (sink_length acc x). apply IH. }
  destruct s as [|x s]; [done|].
  unfold sortStrings. cbn [length foldl sink].
  replace (S (length s) - 1)%nat with (length s) by lia.
  apply (Hloop s [x]).
Qed.

Lemma sortStrings_perm (s : list string) : sortStrings s ≡ₚ s.
Proof.
  rewrite sortStrings_sink, reverse_Permutation.
  assert (Hacc : ∀ acc, foldl sink acc s ≡ₚ acc ++ s).
  { induction s as [|x s IH]; intros acc; simpl.
    - by rewrite (right_id_L [] (++)).
    - rewrite IH, sink_perm. apply Permutation_middle. }
  apply (Hacc []).
Qed.

Lemma sink_sorted (r : list string) (x : string) :
  StronglySorted str_le (reverse r) → StronglySorted str_le (reverse (sink r x)).
Proof.
  induction r as [|y r IH]; simpl.
  { intros _. repeat constructor. }
  rewrite reverse_cons, StronglySorted_app. intros (Hle & Hr & _).
  destruct (String.ltb x y) eqn:Hxy.
  - rewrite reverse_cons. apply StronglySorted_app. split_and!.
    + intros a b Ha ->%list_elem_of_singleton.
      rewrite elem_of_reverse, sink_perm, elem_of_cons in Ha.
      destruct Ha as [-> | Ha]; [by apply str_lt_le|].
      apply Hle; [by rewrite elem_of_reverse | by apply list_elem_of_singleton].
    + by apply IH.
    + repeat constructor.
  - rewrite !reverse_cons. apply StronglySorted_app. split_and!.
    + intros a b Ha ->%list_elem_of_singleton.
      apply str_nlt_le in Hxy.
      apply elem_of_app in Ha as [Ha | ->%list_elem_of_singleton]; [|done].
      apply str_le_trans with y; [|done].
      apply Hle; [done | by apply list_elem_of_singleton].
    + apply StronglySorted_app. split_and!; [done | done | repeat constructor].
    + repeat constructor.
Qed.

Lemma sortStrings_sorted (s : list string) :
  StronglySorted str_le (sortStrings s).
Proof.
  rewrite sortStrings_sink.
  assert (Hacc : ∀ acc, StronglySorted str_le (reverse acc) →
                        StronglySorted str_le (reverse (foldl sink acc s))).
  { induction s as [|x s IH]; intros acc Hs; simpl; [done|].
    by apply IH, sink_sorted. }
  apply Hacc. constructor.
Qed.

(** Sorted without repetition is strictly increasing. *)
Lemma sorted_NoDup_strict (l : list string) :
  StronglySorted str_le l → NoDup l → StronglySorted str_lt l.
Proof.
  induction 1 as [|x l Hs IH Hx]; intros Hnd; [constructor|].
  apply NoDup_cons in Hnd as [Hx' Hnd].
  constructor; [by apply IH|].
  rewrite Forall_forall in Hx |- *. intros y Hy.
  apply str_le_ne_lt; [by apply Hx|]. by intros ->.
Qed.

(** X2. [sortStrings] sorts: its result is in increasing byte order and is a
    rearrangement of its argument. *)
Theorem sortStrings_sorts (s : list string) :
  StronglySorted str_le (sortStrings s) ∧ sortStrings s ≡ₚ s.
Proof. split; [apply sortStrings_sorted | apply sortStrings_perm]. Qed.

End Sorting.

Section MergeKeys.

Lemma mergeKeys_step_inv (st : gmap string bool * list string) (k : string) :
  keys_inv st →
  keys_inv (mergeKeys_step st k) ∧
  ∀ k', k' ∈ (mergeKeys_step st k).2 ↔ k' ∈ st.2 ∨ k' = k.
Proof.
  destruct st as [seen keys]. intros [Hnd Hseen]. simpl in *.
  unfold mergeKeys_step. destruct (default false (seen !! k)) eqn:Hk; simpl.
  - apply Hseen in Hk. split; [done|].
    intros k'. split; [auto | by intros [? | ->]].
  - assert (Hout : k ∉ keys) by (rewrite <- Hseen; congruence).
    split; [split|]; simpl.
    + apply NoDup_app. split_and!; [done | | apply NoDup_singleton].
      by intros k' Hin ->%list_elem_of_singleton.
    + intros k'. rewrite elem_of_app, list_elem_of_singleton, <- Hseen.
      destruct (decide (k = k')) as [-> | Hne].
      * rewrite lookup_insert_eq. simpl. tauto.
      * rewrite lookup_insert_ne by done. intuition congruence.
    + intros k'. by rewrite elem_of_app, list_elem_of_singleton.
Qed.

Lemma mergeKeys_loop_inv (l : list string) (st : gmap string bool * list string) :
  keys_inv st →
  keys_inv (foldl mergeKeys_step st l) ∧
  ∀ k, k ∈ (foldl mergeKeys_step st l).2 ↔ k ∈ st.2 ∨ k ∈ l.
Proof.
  revert st. induction l as [|x l IH]; intros st Hst; simpl.
  - split; [done|]. intros k. rewrite elem_of_nil. tauto.
  - destruct (mergeKeys_step_inv st x Hst) as [Hst' Hx].
    destruct (IH _ Hst') as [Hinv Hl]. split; [done|].
    intros k. rewrite Hl, Hx, elem_of_cons. intuition congruence.
Qed.

(** [mergeKeys] returns the keys of either map, each once, in strictly
    increasing byte order. *)
Lemma mergeKeys_sorted_union (a b : gomap) :
  StronglySorted str_lt (mergeKeys a b) ∧
  ∀ k, k ∈ mergeKeys a b ↔ k ∈ map_keys a ∨ k ∈ map_keys b.
Proof.
  unfold mergeKeys.
  assert (H0 : keys_inv (∅, [])).
  { split; simpl; [constructor|].
    intros k. rewrite lookup_empty, elem_of_nil. simpl. intuition congruence. }
  destruct (mergeKeys_loop_inv (map_keys a) _ H0) as [Ha Hina].
  destruct (mergeKeys_loop_inv (map_keys b) _ Ha) as [[Hnd _] Hinb].
  split.
  - apply sorted_NoDup_strict; [apply sortStrings_sorted|].
    by rewrite sortStrings_perm.
  - intros k. rewrite sortStrings_perm, Hinb, Hina. simpl.
    rewrite elem_of_nil. tauto.
Qed.

Lemma map_index_None (m : gomap) (k : string) :
  map_index m k = None ↔ k ∉ map_keys m.
Proof.
  unfold map_keys. induction m as [|[k' v] m IH]; simpl.
  - rewrite elem_of_nil. tauto.
  - rewrite not_elem_of_cons.
    destruct (String.eqb_spec k' k); intuition congruence.
Qed.

End MergeKeys.

Section Differ.
Context `{GoLib}.

Lemma collect_is_Some {A} (l : list (option A)) :
  Forall is_Some l → is_Some (collect l).
Proof.
  induction 1 as [|[x|] l [y Hy] _ [r Hr]]; simpl; [done | | done].
  by rewrite Hr.
Qed.

(** [json.Marshal] does not fail on a decoded value. *)
Lemma json_Marshal_decoded (v : Value) :
  decoded v = true → is_Some (json_Marshal v).
Proof.
  induction v as [| | | |items IH|m IH] using Value_nested_ind;
    cbn [decoded json_Marshal]; intros Hd; try done.
  - by rewrite Hd.
  - apply fmap_is_Some, collect_is_Some.
    apply Forall_fmap. rewrite forallb_forall in Hd.
    rewrite Forall_forall in IH |- *. intros x Hx.
    apply IH; [done|]. by apply Hd, list_elem_of_In.
  - apply fmap_is_Some, collect_is_Some.
    apply Forall_fmap. rewrite merge_sort_Permutation.
    apply Forall_fmap. rewrite forallb_forall in Hd.
    rewrite Forall_forall in IH |- *. intros kv Hkv. simpl.
    apply fmap_is_Some, IH; [done|]. by apply Hd, list_elem_of_In.
Qed.

(** On decoded values [valuesEqual] is byte equality of the two
    serializations. *)
Lemma valuesEqual_decoded (a b : Value) :
  decoded a = true → decoded b = true →
  valuesEqual a b = bool_decide (json_Marshal a = json_Marshal b).
Proof.
  intros [aJSON Ha]%json_Marshal_decoded [bJSON Hb]%json_Marshal_decoded.
  unfold valuesEqual. rewrite Ha, Hb.
  destruct (String.eqb_spec aJSON bJSON) as [-> | Hne].
  - by rewrite bool_decide_eq_true_2.
  - rewrite bool_decide_eq_false_2; [done | congruence].
Qed.

Lemma strings_Join_cons_empty (x : string) (l : list string) :
  strings_Join (x :: l) "" = x +:+ strings_Join l "".
Proof. destruct l; [by rewrite str_app_nil_r | done]. Qed.

(** A loop that appends one text per element writes their concatenation. *)
Lemma foldl_write {A} (f : A → string) (l : list A) (sb : string) :
  foldl (λ sb x, sb +:+ f x) sb l = sb +:+ strings_Join (map f l) "".
Proof.
  revert sb. induction l as [|x l IH]; intros sb; simpl foldl.
  - by rewrite str_app_nil_r.
  - rewrite IH. cbn [map]. by rewrite strings_Join_cons_empty, str_app_assoc.
Qed.

Lemma map_index_decoded (m : gomap) (k : string) (v : Value) :
  Forall (λ kv, decoded kv.2 = true) m → map_index m k = Some v →
  decoded v = true.
Proof.
  induction 1 as [|[k' v'] m Hv _ IH]; simpl; [done|].
  destruct (String.eqb k' k); [by intros [= <-] | done].
Qed.

(** C1. For maps of decoded values, [writeDiff] appends one line per key of
    the union of the keys of [before] and [after], each key once, in strictly
    increasing byte order: a [+] line for a key of [after] only, a [-] line
    for a key of [before] only, and for a key of both a [~] line exactly when
    the serializations of the two values differ. *)
Theorem writeDiff_lines (sb : string) (before after : gomap) (depth : Z) :
  0 ≤ depth < 2 ^ 63 - 1 →
  Forall (λ kv, decoded kv.2 = true) before →
  Forall (λ kv, decoded kv.2 = true) after →
  let keys := mergeKeys before after in
  StronglySorted str_lt keys ∧
  (∀ k, k ∈ keys ↔ k ∈ map_keys before ∨ k ∈ map_keys after) ∧
  writeDiff sb before after depth
  = sb +:+ strings_Join (map (diffLine_spec before after depth) keys) "".
Proof.
  intros Hdepth Hb Ha keys.
  destruct (mergeKeys_sorted_union before after) as [Hsorted Hunion].
  split_and!; [done | done |].
  unfold writeDiff. fold keys. rewrite foldl_write. do 2 f_equal.
  apply map_ext. intros key.
  unfold diffLine, diffLine_spec, strings_Repeat.
  rewrite int_add_small by lia.
  destruct (map_index before key) as [bVal|] eqn:Hbk;
    destruct (map_index after key) as [aVal|] eqn:Hak; try done.
  rewrite valuesEqual_decoded by eauto using map_index_decoded.
  by destruct (bool_decide _).
Qed.

End Differ.

(** The witness of C1: [before = {b: 1, a: 2}] and [after = {a: 2, c: 3}];
    the keys come out as [a], [b], [c], with [a] unchanged, [b] removed and
    [c] added. *)
Lemma writeDiff_lines_witness :
  let before := [("b", num 1); ("a", num 2)] in
  let after := [("a", num 2); ("c", num 3)] in
  mergeKeys before after = ["a"; "b"; "c"] ∧
  writeDiff "" before after 0 = "- b = 1" +:+ nl +:+ "+ c = 3" +:+ nl.
Proof.
  intros before after.
  destruct (writeDiff_lines "" before after 0) as (_ & _ & Hw);
    [lia | by repeat constructor | by repeat constructor |].
  split; [by vm_compute|]. rewrite Hw. by vm_compute.
Defined.

(** ** The diff renderer *)

Section Renderer.
Context `{GoLib}.

Lemma writeMapValues_lines (sb : string) (m : gomap) (prefix : string) :
  writeMapValues sb m prefix 0 = sb +:+ map_lines prefix m.
Proof. unfold writeMapValues. by rewrite foldl_write. Qed.

Ltac case_action :=
  repeat match goal with
    | |- context [String.eqb ?a ?b] =>
        destruct (String.eqb_spec a b); simplify_eq/=; try done
    end.

(** C4. When the composed body is longer than 4000 bytes the result is its
    first 4000 bytes followed by the fixed marker, a line feed on either side
    of [... (diff truncated, too many changes to display)], 4051 bytes in
    all; a body of at most 4000 bytes is returned as it is. The cap reads
    nothing but the length of the body. *)
Theorem buildAttributeDiff_cap (before after : Value) (action : string) :
  let body := attributeDiffBody before after action in
  truncationMarker
  = nl +:+ "... (diff truncated, too many changes to display)" +:+ nl ∧
  ((String.length body ≤ 4000)%nat →
     buildAttributeDiff before after action = body) ∧
  ((4000 < String.length body)%nat →
     ∃ head tail,
       body = head +:+ tail ∧ String.length head = 4000%nat ∧
       buildAttributeDiff before after action = head +:+ truncationMarker ∧
       String.length (buildAttributeDiff before after action) = 4051%nat).
Proof.
  intros body. split_and!; [done | |]; intros Hlen; unfold buildAttributeDiff;
    fold body; unfold maxDiffSize.
  - by rewrite (len_string_le body 4000).
  - rewrite (len_string_gt body 4000) by done.
    destruct (slice_to_split body 4000) as (tail & Hbody & Hhead); [lia|].
    exists (slice_to body 4000), tail. split_and!; try done.
    rewrite str_length_app.
    change (Z.to_nat 4000) with 4000%nat. rewrite Hhead. reflexivity.
Qed.

(** C8. [buildAttributeDiff] returns a text for every pair of values and
    every action: for [create], one [+] line per entry of [after], and
    nothing when [after] is not a map; for [delete], one [-] line per entry of
    [before], and nothing when [before] is not a map; for [update] and the
    two replace texts, the diff of the two maps, and nothing when either side
    is not a map; for every other action, nothing. The cap of C4 applies to
    what is composed. *)
Theorem buildAttributeDiff_dispatch (before after : Value) (action : string) :
  (action = "create" →
     buildAttributeDiff before after action
     = capped (match after with VMap m => map_lines "+ " m | _ => "" end)) ∧
  (action = "delete" →
     buildAttributeDiff before after action
     = capped (match before with VMap m => map_lines "- " m | _ => "" end)) ∧
  (action ∈ ["update"; "replace (delete, create)"; "replace (create, delete)"] →
     buildAttributeDiff before after action
     = capped (match before, after with
               | VMap b, VMap a => writeDiff "" b a 0
               | _, _ => ""
               end) ∧
     (is_map before && is_map after = false →
      buildAttributeDiff before after action = "")) ∧
  (action ∉ ["create"; "delete"; "update"; "replace (delete, create)";
             "replace (create, delete)"] →
     buildAttributeDiff before after action = "").
Proof.
  unfold buildAttributeDiff, attributeDiffBody, capped, maxDiffSize.
  split_and!.
  - intros ->. simpl. destruct after; try done.
    by rewrite writeMapValues_lines.
  - intros ->. simpl. destruct before; try done.
    by rewrite writeMapValues_lines.
  - rewrite !elem_of_cons, elem_of_nil.
    intros [-> | [-> | [-> | []]]]; simpl;
      (split; [done | by destruct before, after]).
  - rewrite !not_elem_of_cons. intros (?&?&?&?&?&_). by case_action.
Qed.

End Renderer.

(** The witness of C4: a record created with 500 attributes, each rendered in
    a short line, composes more than 4000 bytes. *)
Lemma buildAttributeDiff_cap_witness :
  let after := VMap (map (λ i, (pretty i, VBool true)) (seq 0 500)) in
  ∃ head tail,
    attributeDiffBody VNil after "create" = head +:+ tail ∧
    String.length head = 4000%nat ∧
    buildAttributeDiff VNil after "create" = head +:+ truncationMarker.
Proof.
  intros after.
  destruct (buildAttributeDiff_cap VNil after "create") as (_ & _ & Hcut).
  destruct Hcut as (head & tail & Hbody & Hhead & Hcap & _);
    [vm_compute; lia|].
  exists head, tail. split; [exact Hbody | split; [exact Hhead | exact Hcap]].
Defined.

(** The witness of C8: the create scenario [after = {name: x}], and an update
    whose [after] is a string. *)
Lemma buildAttributeDiff_dispatch_witness :
  buildAttributeDiff VNil (VMap [("name", VString "x")]) "create"
  = "+ name = " +:+ dquote +:+ "x" +:+ dquote +:+ nl ∧
  buildAttributeDiff (VMap [("name", VString "x")]) (VString "x") "update" = "" ∧
  buildAttributeDiff VNil VNil "forget" = "".
Proof.
  split_and!.
  - rewrite (proj1 (buildAttributeDiff_dispatch _ _ "create")) by done.
    by vm_compute.
  - apply (proj1 (proj2 (proj2 (buildAttributeDiff_dispatch _ _ "update")))).
    + rewrite !elem_of_cons. auto.
    + done.
  - apply (proj2 (proj2 (proj2 (buildAttributeDiff_dispatch _ _ "forget")))).
    rewrite !not_elem_of_cons. split_and!; try done. apply not_elem_of_nil.
Defined.

(** ** Iteration order *)

Section IterationOrder.
Context `{GoLib}.

(** C2, where the code departs from it. A created record whose [after] map
    holds [a: 1] and [b: 2] is rendered with the line of [a] first when
    [range] yields [a] first and with the line of [b] first when it yields
    [b] first: [writeMapValues] writes in iteration order, where [mergeKeys]
    sorts. The same holds for a deleted record and its [before] map. *)
Theorem writeResourceChange_follows_range_order :
  let ab := VMap [("a", num 1); ("b", num 2)] in
  let ba := VMap [("b", num 2); ("a", num 1)] in
  let created m := record "aws_instance.web" ["create"] VNil m "" in
  let deleted m := record "aws_instance.web" ["delete"] m VNil "" in
  same_record (created ab) (created ba) ∧
  same_record (deleted ab) (deleted ba) ∧
  buildAttributeDiff VNil ab "create" = "+ a = 1" +:+ nl +:+ "+ b = 2" +:+ nl ∧
  buildAttributeDiff VNil ba "create" = "+ b = 2" +:+ nl +:+ "+ a = 1" +:+ nl ∧
  writeResourceChange "" (created ab) ≠ writeResourceChange "" (created ba) ∧
  writeResourceChange "" (deleted ab) ≠ writeResourceChange "" (deleted ba).
Proof.
  intros ab ba created deleted.
  assert (Hsame : same_value ab ba).
  { apply same_map with [("b", num 2); ("a", num 1)].
    - apply Permutation_swap.
    - repeat constructor. }
  split_and!; try done.
  - repeat split; try done. constructor.
  - repeat split; try done. constructor.
Qed.

End IterationOrder.

(** ** Order independence of the diff *)

Section OrderIndependence.
Context `{GoLib}.

Lemma map_index_Some (m : gomap) (k : string) (v : Value) :
  NoDup (map_keys m) → map_index m k = Some v ↔ (k, v) ∈ m.
Proof.
  unfold map_keys. induction m as [|[k' v'] m IH]; simpl.
  - intros _. rewrite elem_of_nil. split; [done | tauto].
  - rewrite NoDup_cons, elem_of_cons. intros [Hk' Hnd].
    destruct (String.eqb_spec k' k) as [-> | Hne].
    + split; [intros [= ->]; by left|].
      intros [[= ->] | Hin]; [done|].
      destruct Hk'. apply list_elem_of_fmap. by exists (k, v).
    + rewrite IH by done. split; [by right|].
      by intros [[= -> ->] | Hin].
Qed.

Lemma map_index_perm (m1 m2 : gomap) (k : string) :
  NoDup (map_keys m1) → m1 ≡ₚ m2 → map_index m1 k = map_index m2 k.
Proof.
  intros Hnd Hp.
  assert (Hnd2 : NoDup (map_keys m2)) by (unfold map_keys; by rewrite <- Hp).
  apply option_eq. intros v. rewrite !map_index_Some by done. by rewrite Hp.
Qed.

Lemma distinct_keys_map (m : gomap) :
  distinct_keys (VMap m) = true →
  NoDup (map_keys m) ∧ Forall (λ kv, distinct_keys kv.2 = true) m.
Proof.
  cbn [distinct_keys]. intros [Hnd Hall]%andb_prop.
  split; [by apply bool_decide_eq_true in Hnd|].
  apply Forall_forall. intros kv Hin. rewrite forallb_forall in Hall.
  by apply Hall, list_elem_of_In.
Qed.

Lemma distinct_keys_slice (items : list Value) :
  distinct_keys (VSlice items) = true →
  Forall (λ v, distinct_keys v = true) items.
Proof.
  cbn [distinct_keys]. intros Hall.
  apply Forall_forall. intros v Hin. rewrite forallb_forall in Hall.
  by apply Hall, list_elem_of_In.
Qed.

Lemma fst_determines {A B} (l : list (A * B)) (x y : A * B) :
  NoDup l.*1 → x ∈ l → y ∈ l → x.1 = y.1 → x = y.
Proof.
  induction l as [|z l IH]; simpl; [by rewrite elem_of_nil|].
  rewrite NoDup_cons, !elem_of_cons. intros [Hz Hnd] [-> | Hx] [-> | Hy] Hxy.
  - done.
  - destruct Hz. rewrite Hxy. by apply list_elem_of_fmap_2.
  - destruct Hz. rewrite <- Hxy. by apply list_elem_of_fmap_2.
  - by apply IH.
Qed.

#[local] Instance key_le_trans : Transitive key_le.
Proof. intros a b c. unfold key_le. apply transitivity. Qed.
#[local] Instance key_le_total : Total key_le.
Proof. intros a b. unfold key_le. apply total, _. Qed.

(** Sorting the entries by key does not depend on their order. *)
Lemma merge_sort_keys_perm (l1 l2 : list (string * option string)) :
  NoDup l1.*1 → l1 ≡ₚ l2 → merge_sort key_le l1 = merge_sort key_le l2.
Proof.
  intros Hnd Hp. apply (StronglySorted_unique_strong key_le).
  - intros x1 x2 Hx1 Hx2 H12 H21.
    rewrite merge_sort_Permutation in Hx1.
    rewrite merge_sort_Permutation, <- Hp in Hx2.
    apply (fst_determines l1); [done..|].
    by apply (anti_symm String.le).
  - apply StronglySorted_merge_sort; apply _.
  - apply StronglySorted_merge_sort; apply _.
  - by rewrite !merge_sort_Permutation.
Qed.

(** [json.Marshal] does not depend on the iteration order of maps. *)
Lemma json_Marshal_same (v1 v2 : Value) :
  same_value v1 v2 → distinct_keys v1 = true →
  json_Marshal v1 = json_Marshal v2.
Proof.
  revert v2.
  induction v1 as [| | | |items IH|m1 IH] using Value_nested_ind;
    intros v2 Hsame Hwf; inversion Hsame as [| | | |? l2 Hall|? m ? Hp Hall];
    subst; try done.
  - cbn [json_Marshal]. do 2 f_equal.
    apply distinct_keys_slice in Hwf. clear Hsame.
    induction Hall as [|x y l1 l2 Hxy _ IHl]; [done|].
    apply Forall_cons in IH as [IHx IH]. apply Forall_cons in Hwf as [Hx Hwf].
    cbn [map]. f_equal; [by apply IHx | by apply IHl].
  - cbn [json_Marshal]. apply distinct_keys_map in Hwf as [Hnd Hwf].
    set (f := λ kv : string * Value, (kv.1, json_Marshal kv.2)).
    assert (Hm : map f m = map f m2).
    { rewrite Hp in IH, Hwf. clear Hp Hnd Hsame.
      induction Hall as [|[k1 x] [k2 y] l1 l2 [Hk Hxy] _ IHl]; [done|].
      apply Forall_cons in IH as [IHx IH]. apply Forall_cons in Hwf as [Hx Hwf].
      simpl in *. subst k2. cbn [map]. f_equal; [|by apply IHl].
      unfold f. simpl. f_equal. by apply IHx. }
    rewrite <- Hm. do 3 f_equal. apply merge_sort_keys_perm.
    + unfold f. rewrite <- list_fmap_compose. done.
    + by apply fmap_Permutation.
Qed.

(** [formatValue] does not depend on the iteration order of maps. *)
Lemma formatValue_same (v1 v2 : Value) (depth : Z) :
  same_value v1 v2 → distinct_keys v1 = true →
  formatValue v1 depth = formatValue v2 depth.
Proof.
  revert v2 depth.
  induction v1 as [| | | |items IH|m1 _] using Value_nested_ind;
    intros v2 depth Hsame Hwf;
    pose proof (json_Marshal_same _ _ Hsame Hwf) as Hjson;
    inversion Hsame as [| | | |? l2 Hall|? m ? Hp Hall]; subst; try done.
  - cbn [formatValue]. unfold len.
    rewrite (Forall2_length _ _ _ Hall).
    assert (Hmap : map (λ item, formatValue item (int_add depth 1)) items
                   = map (λ item, formatValue item (int_add depth 1)) l2).
    { apply distinct_keys_slice in Hwf. clear Hsame Hjson.
      induction Hall as [|x y l1 l2 Hxy _ IHl]; [done|].
      apply Forall_cons in IH as [IHx IH]. apply Forall_cons in Hwf as [Hx Hwf].
      cbn [map]. f_equal; [by apply IHx | by apply IHl]. }
    by rewrite Hmap.
  - cbn [formatValue]. unfold len.
    rewrite Hjson, (Permutation_length Hp), (Forall2_length _ _ _ Hall). done.
Qed.

Lemma valuesEqual_same (b1 b2 a1 a2 : Value) :
  same_value b1 b2 → same_value a1 a2 →
  distinct_keys b1 = true → distinct_keys a1 = true →
  valuesEqual b1 a1 = valuesEqual b2 a2.
Proof.
  intros Hb Ha Hwb Hwa. unfold valuesEqual.
  by rewrite (json_Marshal_same b1 b2), (json_Marshal_same a1 a2).
Qed.

(** Looking a key up gives the same value under either order. *)
Lemma map_index_same (m1 m2 : gomap) (k : string) :
  same_value (VMap m1) (VMap m2) → distinct_keys (VMap m1) = true →
  option_Forall2 (λ v1 v2, same_value v1 v2 ∧ distinct_keys v1 = true)
    (map_index m1 k) (map_index m2 k).
Proof.
  intros Hsame [Hnd Hwf]%distinct_keys_map.
  inversion Hsame as [| | | | |? m ? Hp Hall]; subst.
  rewrite (map_index_perm m1 m k) by done. rewrite Hp in Hwf.
  clear Hsame Hp Hnd.
  induction Hall as [|[k1 x] [k2 y] l1 l2 [Hk Hxy] _ IHl]; [constructor|].
  apply Forall_cons in Hwf as [Hx Hwf]. simpl in *. subst k2.
  destruct (String.eqb k1 k); [by constructor | by apply IHl].
Qed.

Lemma map_keys_same (m1 m2 : gomap) :
  same_value (VMap m1) (VMap m2) → map_keys m1 ≡ₚ map_keys m2.
Proof.
  intros Hsame. inversion Hsame as [| | | | |? m ? Hp Hall]; subst.
  unfold map_keys. rewrite Hp. clear Hsame Hp.
  induction Hall as [|[k1 x] [k2 y] l1 l2 [Hk Hxy] _ IHl]; [done|].
  simpl in *. subst k2. by rewrite IHl.
Qed.

Lemma str_lt_irrefl (a : string) : ¬ str_lt a a.
Proof.
  unfold str_lt, String.ltb.
  assert (String.compare a a = Eq) as ->; [|done].
  induction a as [|c a IH]; simpl; [done|].
  unfold Ascii.compare. by rewrite N.compare_refl.
Qed.

Lemma str_lt_asym (a b : string) : str_lt a b → str_lt b a → a = b.
Proof.
  unfold str_lt, String.ltb. rewrite (String.compare_antisym a b).
  by destruct (String.compare b a).
Qed.

(** A strictly increasing list is determined by its elements. *)
Lemma strict_sorted_ext (l1 l2 : list string) :
  StronglySorted str_lt l1 → StronglySorted str_lt l2 →
  (∀ k, k ∈ l1 ↔ k ∈ l2) → l1 = l2.
Proof.
  assert (Hnd : ∀ l, StronglySorted str_lt l → NoDup l).
  { induction 1 as [|x l _ IH Hx]; constructor; [|done].
    intros Hin. rewrite Forall_forall in Hx.
    by apply (str_lt_irrefl x), Hx. }
  intros H1 H2 Hin. apply (StronglySorted_unique_strong str_lt); try done.
  - intros x1 x2 _ _. apply str_lt_asym.
  - apply NoDup_Permutation; auto.
Qed.

Lemma mergeKeys_same (b1 b2 a1 a2 : gomap) :
  map_keys b1 ≡ₚ map_keys b2 → map_keys a1 ≡ₚ map_keys a2 →
  mergeKeys b1 a1 = mergeKeys b2 a2.
Proof.
  intros Hb Ha.
  destruct (mergeKeys_sorted_union b1 a1) as [Hs1 Hin1].
  destruct (mergeKeys_sorted_union b2 a2) as [Hs2 Hin2].
  apply strict_sorted_ext; [done | done |].
  intros k. by rewrite Hin1, Hin2, Hb, Ha.
Qed.

Lemma writeDiff_same (sb : string) (b1 b2 a1 a2 : gomap) (depth : Z) :
  same_value (VMap b1) (VMap b2) → same_value (VMap a1) (VMap a2) →
  distinct_keys (VMap b1) = true → distinct_keys (VMap a1) = true →
  writeDiff sb b1 a1 depth = writeDiff sb b2 a2 depth.
Proof.
  intros Hb Ha Hwb Hwa. unfold writeDiff.
  rewrite (mergeKeys_same b1 b2 a1 a2) by by apply map_keys_same.
  rewrite !foldl_write. do 2 f_equal. apply map_ext. intros key.
  unfold diffLine.
  destruct (map_index_same b1 b2 key Hb Hwb) as [bv1 bv2 [Hbv Hbw]|];
    destruct (map_index_same a1 a2 key Ha Hwa) as [av1 av2 [Hav Haw]|];
    try done.
  - rewrite (valuesEqual_same bv1 bv2 av1 av2) by done.
    by rewrite (formatValue_same bv1 bv2), (formatValue_same av1 av2).
  - by rewrite (formatValue_same bv1 bv2).
  - by rewrite (formatValue_same av1 av2).
Qed.

(** X1. Every action other than [create] and [delete] is rendered the same
    under every iteration order of the maps of [before] and [after]. *)
Theorem buildAttributeDiff_order_independent
    (b1 b2 a1 a2 : Value) (action : string) :
  same_value b1 b2 → same_value a1 a2 →
  distinct_keys b1 = true → distinct_keys a1 = true →
  action ≠ "create" → action ≠ "delete" →
  buildAttributeDiff b1 a1 action = buildAttributeDiff b2 a2 action.
Proof.
  intros Hb Ha Hwb Hwa Hc Hd.
  assert (Hbody : attributeDiffBody b1 a1 action = attributeDiffBody b2 a2 action).
  { unfold attributeDiffBody.
    destruct (String.eqb_spec action "create"); [done|].
    destruct (String.eqb_spec action "delete"); [done|].
    destruct (_ || _); [|done].
    inversion Hb; subst; try done; inversion Ha; subst; try done.
    by apply writeDiff_same. }
  unfold buildAttributeDiff. by rewrite Hbody.
Qed.

End OrderIndependence.

(** An update of [{a: 1, b: 2}] to [{a: 1, b: 3}] under two iteration orders
    of either map. *)
Lemma buildAttributeDiff_order_independent_witness :
  buildAttributeDiff (VMap [("a", num 1); ("b", num 2)])
                     (VMap [("b", num 3); ("a", num 1)]) "update"
  = buildAttributeDiff (VMap [("b", num 2); ("a", num 1)])
                       (VMap [("a", num 1); ("b", num 3)]) "update".
Proof.
  apply buildAttributeDiff_order_independent; try done.
  - apply same_map with [("b", num 2); ("a", num 1)];
      [apply Permutation_swap | repeat constructor].
  - apply same_map with [("a", num 1); ("b", num 3)];
      [apply Permutation_swap | repeat constructor].
Defined.

(** ** The scenarios of the specification, on the reference library *)

(** The update scenario: [count] goes from 1 to 2 and [tags] from [a] to
    [a, b]; two [~] lines and nothing else. *)
Theorem update_scenario :
  let before := VMap [("count", num 1); ("tags", VSlice [VString "a"])] in
  let after := VMap [("count", num 2);
                     ("tags", VSlice [VString "a"; VString "b"])] in
  let q s := dquote +:+ s +:+ dquote in
  summarizeActions ["update"] = "update" ∧
  buildAttributeDiff (H:=go_ref) before after "update"
  = "~ count = 1 -> 2" +:+ nl +:+
    "~ tags = [" +:+ q "a" +:+ "] -> [" +:+ q "a" +:+ ", " +:+ q "b" +:+ "]" +:+ nl.
Proof. split; by vm_compute. Qed.

(** ** The tallies of [countActions] *)

Section Tally.

Ltac case_eqb :=
  repeat match goal with
    | |- context [String.eqb ?a ?b] =>
        destruct (String.eqb_spec a b); simplify_eq/=; try done
    end.

(** A classification is one of the five single tags only for the list of
    that tag alone. *)
Lemma summarizeActions_single (actions : list string) (tag : string) :
  tag ∈ ["create"; "update"; "delete"; "no-op"; "read"] →
  summarizeActions actions = tag ↔ actions = [tag].
Proof.
  intros Htag. split.
  - intros Hs. destruct (fallback actions) eqn:Hf.
    + pose proof (fallback_not_single actions Hf) as Hn. by rewrite Hs in Hn.
    + apply bool_decide_eq_false in Hf. apply dec_stable in Hf.
      unfold named_actions in Hf. rewrite !elem_of_cons, elem_of_nil in Hf.
      rewrite !elem_of_cons, elem_of_nil in Htag.
      destruct Hf as [-> | [-> | [-> | [-> | [-> | [-> | [-> | []]]]]]]];
        simpl in Hs; subst tag; try done;
        by destruct Htag as [? | [? | [? | [? | [? | []]]]]].
  - intros ->. rewrite !elem_of_cons, elem_of_nil in Htag.
    by destruct Htag as [-> | [-> | [-> | [-> | [-> | []]]]]].
Qed.

Lemma count_where_cons (test : resourceChange → bool) rc changes :
  count_where test (rc :: changes) = b2z (test rc) + count_where test changes.
Proof.
  unfold count_where, len. rewrite filter_cons.
  destruct (decide (test rc = true)) as [-> | Hn].
  - simpl. lia.
  - apply not_true_is_false in Hn. rewrite Hn. simpl. lia.
Qed.

Lemma count_where_bounds (test : resourceChange → bool) changes :
  0 ≤ count_where test changes ≤ len changes.
Proof.
  unfold count_where, len. pose proof (length_filter (λ rc, test rc = true) changes).
  lia.
Qed.

(** One step of the tally, when no counter is at the largest [int]. *)
Lemma countAction_step (c : actionCounts) (rc : resourceChange) :
  adds c < 2 ^ 63 - 1 → updates c < 2 ^ 63 - 1 → destroys c < 2 ^ 63 - 1 →
  replaces c < 2 ^ 63 - 1 → noops c < 2 ^ 63 - 1 →
  - 2 ^ 63 ≤ adds c → - 2 ^ 63 ≤ updates c → - 2 ^ 63 ≤ destroys c →
  - 2 ^ 63 ≤ replaces c → - 2 ^ 63 ≤ noops c →
  countAction c (summarizeActions (Actions (Change rc)))
  = add_counts c (b2z (has_actions ["create"] rc)) (b2z (has_actions ["update"] rc))
      (b2z (has_actions ["delete"] rc)) (b2z (is_replace rc))
      (b2z (is_unchanged rc)).
Proof.
  intros. unfold is_unchanged, has_actions, is_replace.
  set (a := summarizeActions (Actions (Change rc))).
  assert (Hsingle : ∀ tag, tag ∈ ["create"; "update"; "delete"; "no-op"; "read"] →
            bool_decide (Actions (Change rc) = [tag]) = String.eqb a tag).
  { intros tag Htag. destruct (String.eqb_spec a tag) as [Ha | Ha].
    - apply bool_decide_eq_true. by apply (summarizeActions_single _ tag).
    - apply bool_decide_eq_false. intros Hx.
      by apply (summarizeActions_single _ tag) in Hx. }
  rewrite !Hsingle by (rewrite !elem_of_cons; auto 10).
  unfold countAction, add_counts. clear Hsingle.
  destruct c as [ca cu cd cr cn]. simpl in *. clearbody a.
  case_eqb; simpl; rewrite ?int_add_small by lia; f_equal; lia.
Qed.

(** The tally is exact while the list is shorter than the largest [int]. *)
Lemma countActions_loop (changes : list resourceChange) (c : actionCounts) :
  0 ≤ adds c → 0 ≤ updates c → 0 ≤ destroys c → 0 ≤ replaces c → 0 ≤ noops c →
  adds c + len changes < 2 ^ 63 → updates c + len changes < 2 ^ 63 →
  destroys c + len changes < 2 ^ 63 → replaces c + len changes < 2 ^ 63 →
  noops c + len changes < 2 ^ 63 →
  foldl (λ c rc, countAction c (summarizeActions (Actions (Change rc)))) c changes
  = add_counts c (count_where (has_actions ["create"]) changes)
      (count_where (has_actions ["update"]) changes)
      (count_where (has_actions ["delete"]) changes)
      (count_where is_replace changes)
      (count_where is_unchanged changes).
Proof.
  revert c. induction changes as [| rc changes IH]; intros c.
  - intros. destruct c. unfold add_counts, count_where, len. simpl.
    f_equal; lia.
  - intros Ha Hu Hd Hr Hn Ha' Hu' Hd' Hr' Hn'.
    assert (len (rc :: changes) = 1 + len changes) as Hl
      by (unfold len; simpl; lia).
    pose proof (count_where_bounds (has_actions ["create"]) changes).
    assert (0 ≤ len changes) by (unfold len; lia).
    rewrite Hl in *. simpl foldl. rewrite countAction_step by lia.
    assert (∀ b, 0 ≤ b2z b ≤ 1) as Hb by (intros []; simpl; lia).
    pose proof (Hb (has_actions ["create"] rc)).
    pose proof (Hb (has_actions ["update"] rc)).
    pose proof (Hb (has_actions ["delete"] rc)).
    pose proof (Hb (is_replace rc)).
    pose proof (Hb (is_unchanged rc)).
    rewrite IH by (simpl; lia).
    rewrite !count_where_cons. unfold add_counts. simpl. f_equal; lia.
Qed.

(** X3. For fewer than [2^63] records the five results of [countActions]
    are exact tallies: [adds], [updates] and [destroys] count the records
    whose action list is [create], [update], [delete] alone, [replaces]
    those whose classification is one of the two replace texts, and [noops]
    those whose action list is [no-op] alone or [read] alone. *)
Theorem countActions_exact (changes : list resourceChange) :
  len changes < 2 ^ 63 →
  let c := countActions changes in
  adds c = count_where (has_actions ["create"]) changes ∧
  updates c = count_where (has_actions ["update"]) changes ∧
  destroys c = count_where (has_actions ["delete"]) changes ∧
  replaces c = count_where is_replace changes ∧
  noops c = count_where is_unchanged changes.
Proof.
  intros Hlen c. unfold c, countActions.
  rewrite countActions_loop by (simpl; lia).
  unfold add_counts. simpl. done.
Qed.

(** Four records: a create, a read, a replace and one with an action of its
    own, which no counter counts. *)
Lemma countActions_exact_witness :
  let changes := [record "a" ["create"] VNil VNil "";
                  record "b" ["read"] VNil VNil "";
                  record "c" ["create"; "delete"] VNil VNil "";
                  record "d" ["forget"] VNil VNil ""] in
  adds (countActions changes) = 1 ∧ replaces (countActions changes) = 1 ∧
  noops (countActions changes) = 1.
Proof.
  intros changes.
  destruct (countActions_exact changes) as (Ha & _ & _ & Hr & Hn); [done|].
  rewrite Ha, Hr, Hn. done.
Defined.

End Tally.

(** ** Empty, reversed and one-sided diffs *)

Section Empty.
Context `{GoLib}.

Lemma str_app_eq_nil (s1 s2 : string) : s1 +:+ s2 = "" ↔ s1 = "" ∧ s2 = "".
Proof.
  destruct s1 as [|c s1].
  - rewrite str_app_nil_l. tauto.
  - rewrite str_app_cons. split; [done | by intros [? _]].
Qed.

Lemma str_app_inv_head (s x y : string) : s +:+ x = s +:+ y → x = y.
Proof.
  induction s as [|c s IH]; [by rewrite !str_app_nil_l|].
  rewrite !str_app_cons. intros [= E]. by apply IH.
Qed.

Lemma str_app_same (s x : string) : s +:+ x = s ↔ x = "".
Proof.
  split; [|intros ->; apply str_app_nil_r].
  intros E. apply (str_app_inv_head s). by rewrite str_app_nil_r.
Qed.

Lemma strings_Join_empty (l : list string) :
  strings_Join l "" = "" ↔ Forall (λ s, s = "") l.
Proof.
  induction l as [|x l IH].
  - split; [constructor | done].
  - rewrite strings_Join_cons_empty, str_app_eq_nil, Forall_cons, IH. done.
Qed.

(** The line of a key is empty only for a key of both maps with equal
    values, or of neither. *)
Lemma diffLine_empty (before after : gomap) (indent : string) (depth : Z)
    (key : string) :
  diffLine before after indent depth key = "" ↔
  match map_index before key, map_index after key with
  | Some bVal, Some aVal => valuesEqual bVal aVal = true
  | None, None => True
  | _, _ => False
  end.
Proof.
  unfold diffLine.
  destruct (map_index before key) as [bVal|], (map_index after key) as [aVal|];
    try done.
  destruct (valuesEqual bVal aVal); simpl; done.
Qed.

Lemma writeDiff_nothing (sb : string) (before after : gomap) (depth : Z) :
  writeDiff sb before after depth = sb ↔
  ∀ k, k ∈ map_keys before ∨ k ∈ map_keys after →
    ∃ bVal aVal, map_index before k = Some bVal ∧ map_index after k = Some aVal ∧
                 valuesEqual bVal aVal = true.
Proof.
  unfold writeDiff. rewrite foldl_write, str_app_same, strings_Join_empty.
  rewrite Forall_fmap, Forall_forall.
  destruct (mergeKeys_sorted_union before after) as [_ Hunion].
  split.
  - intros Hall k Hk. apply Hunion in Hk. specialize (Hall k Hk). simpl in Hall.
    apply diffLine_empty in Hall.
    destruct (map_index before k) as [bVal|] eqn:Hb,
             (map_index after k) as [aVal|] eqn:Ha; try done.
    + by exists bVal, aVal.
    + apply map_index_None in Hb, Ha. apply Hunion in Hk. tauto.
  - intros Hall k Hk. apply Hunion in Hk.
    destruct (Hall k Hk) as (bVal & aVal & Hb & Ha & Heq). simpl.
    apply diffLine_empty. by rewrite Hb, Ha.
Qed.

Lemma capped_empty (before after : Value) (action : string) :
  buildAttributeDiff before after action = "" ↔
  attributeDiffBody before after action = "".
Proof.
  unfold buildAttributeDiff. simpl.
  destruct (maxDiffSize <? len_string _) eqn:Hlen.
  - split.
    + intros [_ E]%str_app_eq_nil. done.
    + intros E. rewrite E in Hlen. done.
  - done.
Qed.

(** X4. The diff of an update between two maps is empty exactly when every
    key of either map is a key of both and [valuesEqual] holds of its two
    values. *)
Theorem buildAttributeDiff_update_empty (before after : gomap) :
  buildAttributeDiff (VMap before) (VMap after) "update" = "" ↔
  ∀ k, k ∈ map_keys before ∨ k ∈ map_keys after →
    ∃ bVal aVal, map_index before k = Some bVal ∧ map_index after k = Some aVal ∧
                 valuesEqual bVal aVal = true.
Proof.
  rewrite capped_empty. unfold attributeDiffBody. simpl.
  apply (writeDiff_nothing "").
Qed.

Lemma valuesEqual_same_value (b a : Value) :
  same_value b a → distinct_keys b = true → decoded b = true →
  valuesEqual b a = true.
Proof.
  intros Hsame Hwf Hdec. unfold valuesEqual.
  rewrite <- (json_Marshal_same b a) by done.
  destruct (json_Marshal_decoded b Hdec) as [j ->].
  apply String.eqb_refl.
Qed.

(** X5. When [before] and [after] are the same decoded value, up to the
    iteration order of maps, every action other than [create] and [delete]
    has an empty diff. *)
Theorem buildAttributeDiff_unchanged (before after : Value) (action : string) :
  same_value before after → distinct_keys before = true → decoded before = true →
  action ≠ "create" → action ≠ "delete" →
  buildAttributeDiff before after action = "".
Proof.
  intros Hsame Hwf Hdec Hc Hd. apply capped_empty. unfold attributeDiffBody.
  destruct (String.eqb_spec action "create"); [done|].
  destruct (String.eqb_spec action "delete"); [done|].
  destruct (_ || _); [|done].
  inversion Hsame as [| | | | |m1 m m2 Hp Hall]; subst; try done.
  apply (writeDiff_nothing ""). intros k Hk.
  pose proof (map_index_same m1 m2 k Hsame Hwf) as Hidx.
  assert (Hdec' : Forall (λ kv, decoded kv.2 = true) m1).
  { cbn [decoded] in Hdec. rewrite forallb_forall in Hdec.
    apply Forall_forall. intros kv Hin. by apply Hdec, list_elem_of_In. }
  inversion Hidx as [bVal aVal [Hv Hw] Hb Ha | Hb Ha].
  - exists bVal, aVal. split_and!; [done | done |].
    apply valuesEqual_same_value; [done | done |].
    by apply (map_index_decoded m1 k).
  - symmetry in Hb, Ha. apply map_index_None in Hb, Ha. tauto.
Qed.

End Empty.

Section Reverse.
Context `{GoLib}.

Lemma valuesEqual_sym (a b : Value) : valuesEqual a b = valuesEqual b a.
Proof.
  unfold valuesEqual.
  destruct (json_Marshal a), (json_Marshal b); try done.
  apply String.eqb_sym.
Qed.

(** X6. Swapping [before] and [after] keeps the keys of the diff and their
    order, turns the [+] line of a key into its [-] line with the same text
    after the sign and the other way round, and writes nothing for a key in
    one direction exactly when it writes nothing in the other. *)
Theorem writeDiff_reversed (before after : gomap) (depth : Z) :
  mergeKeys before after = mergeKeys after before ∧
  ∀ indent key rest,
    (diffLine before after indent depth key = "+ " +:+ rest ↔
     diffLine after before indent depth key = "- " +:+ rest) ∧
    (diffLine before after indent depth key = "- " +:+ rest ↔
     diffLine after before indent depth key = "+ " +:+ rest) ∧
    (diffLine before after indent depth key = "" ↔
     diffLine after before indent depth key = "").
Proof.
  split.
  - destruct (mergeKeys_sorted_union before after) as [Hs1 Hin1].
    destruct (mergeKeys_sorted_union after before) as [Hs2 Hin2].
    apply strict_sorted_ext; [done | done |].
    intros k. rewrite Hin1, Hin2. tauto.
  - intros indent key rest. unfold diffLine.
    destruct (map_index before key) as [bVal|], (map_index after key) as [aVal|];
      try rewrite (valuesEqual_sym aVal bVal);
      try destruct (valuesEqual bVal aVal); simpl;
      rewrite ?str_app_cons, ?str_app_nil_l;
      (split_and!; split; intros E; try discriminate E; try done;
       by injection E as <-).
Qed.

End Reverse.

Section FromEmpty.
Context `{GoLib}.

Lemma strict_sorted_NoDup (l : list string) : StronglySorted str_lt l → NoDup l.
Proof.
  induction 1 as [|x l _ IH Hx]; constructor; [|done].
  intros Hin. rewrite Forall_forall in Hx.
  by apply (str_lt_irrefl x), Hx.
Qed.

Lemma mergeKeys_sorted_keys (m : gomap) :
  StronglySorted str_lt (map_keys m) →
  mergeKeys [] m = map_keys m ∧ mergeKeys m [] = map_keys m.
Proof.
  intros Hs.
  destruct (mergeKeys_sorted_union [] m) as [Hs1 Hin1].
  destruct (mergeKeys_sorted_union m []) as [Hs2 Hin2].
  split; (apply strict_sorted_ext; [done | done |]); intros k.
  - rewrite Hin1. unfold map_keys at 1. simpl. rewrite elem_of_nil. tauto.
  - rewrite Hin2. unfold map_keys at 2. simpl. rewrite elem_of_nil. tauto.
Qed.

Lemma map_index_entry (m : gomap) (kv : string * Value) :
  NoDup (map_keys m) → kv ∈ m → map_index m kv.1 = Some kv.2.
Proof. intros Hnd Hin. apply map_index_Some; [done|]. by destruct kv. Qed.

(** With the entries in increasing key order, the diff against an empty map
    is what [writeMapValues] writes. *)
Lemma writeDiff_sorted (sb : string) (m : gomap) (depth : Z) :
  StronglySorted str_lt (map_keys m) →
  writeDiff sb [] m depth = writeMapValues sb m "+ " depth ∧
  writeDiff sb m [] depth = writeMapValues sb m "- " depth.
Proof.
  intros Hs. pose proof (strict_sorted_NoDup _ Hs) as Hnd.
  destruct (mergeKeys_sorted_keys m Hs) as [E1 E2].
  unfold writeDiff, writeMapValues. rewrite E1, E2. unfold map_keys.
  rewrite !foldl_write, <- !list_fmap_compose.
  split; do 2 f_equal; apply list_fmap_ext; intros i kv Hkv;
    apply list_elem_of_lookup_2 in Hkv; simpl; unfold diffLine;
    rewrite (map_index_entry m kv Hnd Hkv); simpl; by rewrite ?str_app_assoc.
Qed.

Lemma sorted_entries (m : gomap) :
  NoDup (map_keys m) →
  ∃ m', m' ≡ₚ m ∧ StronglySorted str_lt (map_keys m').
Proof.
  intros Hnd.
  destruct (mergeKeys_sorted_union [] m) as [Hs Hin].
  set (keys := mergeKeys [] m) in *.
  set (entry := λ k, (k, default VNil (map_index m k))).
  assert (Hkeys : map_keys (map entry keys) = keys).
  { unfold map_keys. rewrite <- list_fmap_compose.
    rewrite <- (list_fmap_id keys) at 2. by apply list_fmap_ext. }
  exists (map entry keys). split; [|by rewrite Hkeys].
  apply NoDup_Permutation.
  - apply (NoDup_fmap_1 fst). fold (map_keys (map entry keys)).
    rewrite Hkeys. by apply strict_sorted_NoDup.
  - by apply (NoDup_fmap_1 fst).
  - intros [k v]. rewrite list_elem_of_fmap. split.
    + intros (k' & [= -> Hv] & Hk). apply Hin in Hk as [Hk | Hk].
      { by apply elem_of_nil in Hk. }
      apply map_index_Some; [done|].
      destruct (map_index m k') as [v'|] eqn:E; [by subst|].
      by apply map_index_None in E.
    + intros Hkv. exists k. split.
      * unfold entry. apply map_index_Some in Hkv; [|done]. by rewrite Hkv.
      * apply Hin. right. apply list_elem_of_fmap. by exists (k, v).
Qed.

Lemma writeDiff_perm (sb : string) (b1 b2 a1 a2 : gomap) (depth : Z) :
  NoDup (map_keys b1) → NoDup (map_keys a1) → b1 ≡ₚ b2 → a1 ≡ₚ a2 →
  writeDiff sb b1 a1 depth = writeDiff sb b2 a2 depth.
Proof.
  intros Hb Ha Pb Pa. unfold writeDiff.
  rewrite (mergeKeys_same b1 b2 a1 a2)
    by (unfold map_keys; by apply fmap_Permutation).
  rewrite !foldl_write. do 2 f_equal. apply map_ext. intros key.
  unfold diffLine.
  by rewrite (map_index_perm b1 b2), (map_index_perm a1 a2).
Qed.

(** X7. The diff against an empty map is what [writeMapValues] writes when
    [range] yields the entries in increasing key order: with [+] for an empty
    [before], with [-] for an empty [after]. *)
Theorem writeDiff_from_empty (sb : string) (m : gomap) (depth : Z) :
  NoDup (map_keys m) →
  ∃ m', m' ≡ₚ m ∧ StronglySorted str_lt (map_keys m') ∧
        writeDiff sb [] m depth = writeMapValues sb m' "+ " depth ∧
        writeDiff sb m [] depth = writeMapValues sb m' "- " depth.
Proof.
  intros Hnd. destruct (sorted_entries m Hnd) as (m' & Hp & Hs).
  exists m'. split_and!; [done | done | |].
  - rewrite (writeDiff_perm sb [] [] m m') by (done || constructor).
    by apply writeDiff_sorted.
  - rewrite (writeDiff_perm sb m m' [] []) by (done || constructor).
    by apply writeDiff_sorted.
Qed.

End FromEmpty.

Section Lines.
Context `{GoLib}.

Lemma ends_with_nl_app (s line : string) :
  ends_with_nl line → ends_with_nl (s +:+ line).
Proof. intros [p ->]. exists (s +:+ p). by rewrite str_app_assoc. Qed.

(** A loop that appends, per element, nothing or a line leaves nothing or a
    text that ends with a line feed. *)
Lemma join_lines {A} (f : A → string) (l : list A) :
  (∀ x, f x = "" ∨ ends_with_nl (f x)) →
  strings_Join (map f l) "" = "" ∨ ends_with_nl (strings_Join (map f l) "").
Proof.
  intros Hf. induction l as [|x l IH]; [by left|].
  cbn [map]. rewrite strings_Join_cons_empty.
  destruct IH as [-> | IH].
  - rewrite str_app_nil_r. apply Hf.
  - right. by apply ends_with_nl_app.
Qed.

Lemma diffLine_line (before after : gomap) (indent : string) (depth : Z)
    (key : string) :
  diffLine before after indent depth key = ""
  ∨ ends_with_nl (diffLine before after indent depth key).
Proof.
  unfold diffLine.
  destruct (map_index before key) as [bVal|], (map_index after key) as [aVal|];
    try destruct (negb _); try (by left); right; eexists;
    rewrite <- ?str_app_assoc; reflexivity.
Qed.

Lemma attributeDiffBody_lines (before after : Value) (action : string) :
  attributeDiffBody before after action = ""
  ∨ ends_with_nl (attributeDiffBody before after action).
Proof.
  unfold attributeDiffBody.
  destruct (String.eqb action "create").
  { destruct after; try (by left). unfold writeMapValues.
    rewrite foldl_write, str_app_nil_l. apply join_lines.
    intros kv. right. eexists. rewrite <- ?str_app_assoc. reflexivity. }
  destruct (String.eqb action "delete").
  { destruct before; try (by left). unfold writeMapValues.
    rewrite foldl_write, str_app_nil_l. apply join_lines.
    intros kv. right. eexists. rewrite <- ?str_app_assoc. reflexivity. }
  destruct (_ || _); [|by left].
  destruct before; try (by left). destruct after; try (by left).
  unfold writeDiff. rewrite foldl_write, str_app_nil_l. apply join_lines.
  intros key. apply diffLine_line.
Qed.

(** X8. A diff is empty or ends with a line feed, whether it is truncated
    or not; and when the diff of a record is not empty, what
    [writeResourceChange] writes ends with a line feed, the closing fence
    and an empty line: the closing fence starts a line. *)
Theorem buildAttributeDiff_ends_line (before after : Value) (action : string) :
  (buildAttributeDiff before after action = ""
   ∨ ends_with_nl (buildAttributeDiff before after action)) ∧
  ∀ (sb : string) (rc : resourceChange),
    buildAttributeDiff (Before (Change rc)) (After (Change rc))
      (summarizeActions (Actions (Change rc))) ≠ "" →
    ∃ block, writeResourceChange sb rc = block +:+ nl +:+ "```" +:+ nl +:+ nl.
Proof.
  assert (Hline : ∀ before after action,
            buildAttributeDiff before after action = ""
            ∨ ends_with_nl (buildAttributeDiff before after action)).
  { clear. intros before after action. unfold buildAttributeDiff. cbv zeta.
    destruct (maxDiffSize <? len_string _).
    - right. unfold truncationMarker. eexists.
      rewrite <- !str_app_assoc. reflexivity.
    - apply attributeDiffBody_lines. }
  split; [apply Hline|]. intros sb rc Hne.
  destruct (Hline (Before (Change rc)) (After (Change rc))
              (summarizeActions (Actions (Change rc)))) as [E | [line E]];
    [done|].
  unfold writeResourceChange. cbv zeta. rewrite E.
  destruct (String.eqb_spec (line +:+ nl) "") as [E'|_];
    [by rewrite E in Hne|]. cbn [negb].
  eexists. rewrite <- !str_app_assoc. reflexivity.
Qed.

(** X9. [valuesEqual] is symmetric and transitive, and reflexive on
    decoded values; a value that [json.Marshal] fails on is equal to
    nothing, not even to itself. *)
Theorem valuesEqual_equivalence (a b c : Value) :
  (decoded a = true → valuesEqual a a = true) ∧
  valuesEqual a b = valuesEqual b a ∧
  (valuesEqual a b = true → valuesEqual b c = true → valuesEqual a c = true) ∧
  (json_Marshal a = None → valuesEqual a b = false ∧ valuesEqual a a = false).
Proof.
  split_and!.
  - intros [j Hj]%json_Marshal_decoded. unfold valuesEqual. rewrite Hj.
    apply String.eqb_refl.
  - apply valuesEqual_sym.
  - unfold valuesEqual.
    destruct (json_Marshal a), (json_Marshal b), (json_Marshal c); try done.
    intros ->%String.eqb_eq ->%String.eqb_eq. apply String.eqb_refl.
  - intros Ha. unfold valuesEqual. by rewrite Ha.
Qed.

End Lines.

(** ** The plan responses *)

Section Partition.

(** The five single tags are told apart by the classification. *)
Lemma has_actions_eqb (rc : resourceChange) (tag : string) :
  tag ∈ ["create"; "update"; "delete"; "no-op"; "read"] →
  has_actions [tag] rc = String.eqb (summarizeActions (Actions (Change rc))) tag.
Proof.
  intros Htag. unfold has_actions.
  destruct (String.eqb_spec (summarizeActions (Actions (Change rc))) tag) as [Ha | Ha].
  - apply bool_decide_eq_true. by apply (summarizeActions_single _ tag).
  - apply bool_decide_eq_false. intros Hx.
    by apply (summarizeActions_single _ tag) in Hx.
Qed.

(** The loop that gathers [actualChanges] keeps the records that are not
    unchanged, in order. *)
Lemma actualChanges_filter (changes : list resourceChange) :
  actualChanges changes = filter (λ rc, is_unchanged rc = false) changes.
Proof.
  unfold actualChanges.
  assert (Hgen : ∀ acc,
    foldl (λ actualChanges rc,
             let action := summarizeActions (Actions (Change rc)) in
             if negb (String.eqb action "no-op") && negb (String.eqb action "read")
             then actualChanges ++ [rc] else actualChanges) acc changes
    = acc ++ filter (λ rc, is_unchanged rc = false) changes).
  { induction changes as [|rc changes IH]; intros acc; simpl.
    - by rewrite app_nil_r.
    - rewrite IH, filter_cons.
      assert (negb (String.eqb (summarizeActions (Actions (Change rc))) "no-op")
              && negb (String.eqb (summarizeActions (Actions (Change rc))) "read")
              = negb (is_unchanged rc)) as ->.
      { unfold is_unchanged.
        rewrite !has_actions_eqb by (rewrite !elem_of_cons; auto 10).
        by rewrite negb_orb. }
      destruct (is_unchanged rc); simpl; try case_decide; try done.
      by rewrite <- app_assoc. }
  apply (Hgen []).
Qed.

Lemma count_where_split (test : resourceChange → bool) (changes : list resourceChange) :
  count_where test changes + count_where (λ rc, negb (test rc)) changes = len changes.
Proof.
  induction changes as [|rc changes IH].
  - done.
  - rewrite !count_where_cons. unfold len in *. simpl length.
    destruct (test rc); simpl; lia.
Qed.

Lemma len_actualChanges (changes : list resourceChange) :
  len (actualChanges changes) = count_where (λ rc, negb (is_unchanged rc)) changes.
Proof.
  rewrite actualChanges_filter. unfold count_where. f_equal.
  induction changes as [|rc changes IH]; [done|].
  rewrite !filter_cons.
  destruct (is_unchanged rc); simpl; repeat case_decide; try done.
  by rewrite IH.
Qed.

Lemma shown_buckets (changes : list resourceChange) :
  count_where (has_actions ["create"]) changes
  + count_where (has_actions ["update"]) changes
  + count_where (has_actions ["delete"]) changes
  + count_where is_replace changes
  + count_where (λ rc, negb (is_counted rc)) changes
  = count_where (λ rc, negb (is_unchanged rc)) changes.
Proof.
  induction changes as [|rc changes IH]; [done|].
  rewrite !count_where_cons.
  assert (b2z (has_actions ["create"] rc) + b2z (has_actions ["update"] rc)
          + b2z (has_actions ["delete"] rc) + b2z (is_replace rc)
          + b2z (negb (is_counted rc)) = b2z (negb (is_unchanged rc))); [|lia].
  unfold is_counted, is_unchanged, is_replace.
  rewrite !has_actions_eqb by (rewrite !elem_of_cons; auto 10).
  generalize (summarizeActions (Actions (Change rc))). intros a.
  repeat match goal with
    | |- context [String.eqb ?a ?b] =>
        destruct (String.eqb_spec a b); simplify_eq/=; try done
    end.
Qed.

(** X10. Every record of [ResourceChanges] is either listed or counted as
    unchanged: for fewer than [2^63] records the number of records that
    [buildFormattedPlanResponse] lists plus [noops] is the number of
    records, and [adds], [updates], [destroys] and [replaces] add up to the
    number of listed records less those that no counter counts. *)
Theorem resource_changes_partition (changes : list resourceChange) :
  len changes < 2 ^ 63 →
  let c := countActions changes in
  len (actualChanges changes) + noops c = len changes ∧
  adds c + updates c + destroys c + replaces c
  + count_where (λ rc, negb (is_counted rc)) changes
  = len (actualChanges changes).
Proof.
  intros Hlen c. unfold c, countActions.
  rewrite countActions_loop by (simpl; lia).
  unfold add_counts. simpl. rewrite len_actualChanges. split.
  - pose proof (count_where_split is_unchanged changes). lia.
  - apply shown_buckets.
Qed.

End Partition.

(** One record created, one read and one with an action of its own. *)
Lemma resource_changes_partition_witness :
  let changes := [record "a" ["create"] VNil VNil "";
                  record "b" ["read"] VNil VNil "";
                  record "c" ["forget"] VNil VNil ""] in
  len (actualChanges changes) + noops (countActions changes) = 3.
Proof.
  intros changes.
  destruct (resource_changes_partition changes) as [Hp _]; [done|].
  exact Hp.
Defined.

Section Unchanged.
Context `{GoLib} `{GoTime}.

Lemma count_where_none (test : resourceChange → bool) (changes : list resourceChange) :
  Forall (λ rc, test rc = false) changes → count_where test changes = 0.
Proof.
  induction 1 as [|rc changes Hrc _ IH]; [done|].
  rewrite count_where_cons, Hrc, IH. done.
Qed.

Lemma count_where_all (test : resourceChange → bool) (changes : list resourceChange) :
  Forall (λ rc, test rc = true) changes → count_where test changes = len changes.
Proof.
  induction 1 as [|rc changes Hrc _ IH]; [done|].
  rewrite count_where_cons, Hrc, IH. unfold len. simpl. lia.
Qed.

Lemma unchanged_not_other (rc : resourceChange) :
  is_unchanged rc = true →
  has_actions ["create"] rc = false ∧ has_actions ["update"] rc = false ∧
  has_actions ["delete"] rc = false ∧ is_replace rc = false.
Proof.
  unfold is_unchanged, is_replace.
  rewrite !has_actions_eqb by (rewrite !elem_of_cons; auto 10).
  generalize (summarizeActions (Actions (Change rc))). intros a.
  repeat match goal with
    | |- context [String.eqb ?a ?b] =>
        destruct (String.eqb_spec a b); simplify_eq/=; try done
    end.
Qed.

(** X11. A plan with at least one record, all of them [no-op] or [read],
    with no drift and no output changes, is answered with the summary line
    of three zeros and no replace count, no list of resource changes, and
    the note that counts every record as unchanged. *)
Theorem buildFormattedPlanResponse_unchanged (run : Run.t) (plan : Plan.t)
    (parsed : jsonPlan.t) :
  let changes := jsonPlan.ResourceChanges parsed in
  changes ≠ [] → len changes < 2 ^ 63 →
  Forall (λ rc, is_unchanged rc = true) changes →
  jsonPlan.ResourceDrift parsed = [] → jsonPlan.OutputChanges parsed = [] →
  ∃ head,
    buildFormattedPlanResponse run plan parsed
    = NewToolResultText
        (head +:+ nl +:+ "## Summary: 0 to add, 0 to change, 0 to destroy" +:+ nl
           +:+ nl +:+ "*(" +:+ fmt_d (len changes)
           +:+ " resources unchanged, not shown)*" +:+ nl).
Proof.
  intros changes Hne Hlen Hall Hdrift Hout.
  assert (Hc : countActions changes
               = {| adds := 0; updates := 0; destroys := 0; replaces := 0;
                    noops := len changes |}).
  { unfold countActions. rewrite countActions_loop by (simpl; lia).
    unfold add_counts. simpl.
    assert (Hother : ∀ test,
              (∀ rc, is_unchanged rc = true → test rc = false) →
              count_where test changes = 0).
    { intros test Htest. apply count_where_none.
      eapply Forall_impl; [exact Hall|]. done. }
    rewrite (count_where_all is_unchanged) by done.
    rewrite !Hother; [done | ..]; intros rc Hrc;
      by destruct (unchanged_not_other rc Hrc) as (? & ? & ? & ?). }
  assert (Hactual : actualChanges changes = []).
  { rewrite actualChanges_filter. clear -Hall.
    induction Hall as [|rc l Hrc _ IH]; [done|].
    rewrite filter_cons, IH. by rewrite decide_False by congruence. }
  assert (Hpos : (0 <? len changes) = true).
  { apply Z.ltb_lt. unfold len. destruct changes; [done | simpl; lia]. }
  unfold buildFormattedPlanResponse. cbv zeta. fold changes.
  rewrite Hc, Hactual, Hdrift, Hout, Hpos. simpl. rewrite Hpos.
  match goal with
  | |- ∃ _, NewToolResultText (((?head +:+ _) +:+ _) +:+ _) = _ => exists head
  end.
  f_equal. rewrite !(str_app_assoc _ _ nl), !str_app_assoc. reflexivity.
Qed.

End Unchanged.

Section Suffix.

Lemma substring_all (s : string) : String.substring 0 (String.length s) s = s.
Proof. induction s as [|c s IH]; simpl; [done | by rewrite IH]. Qed.

Lemma slice_from_0 (s : string) : slice_from s 0 = s.
Proof. unfold slice_from. rewrite Nat.sub_0_r. apply substring_all. Qed.

Lemma slice_from_S (c : ascii) (s : string) (n : nat) :
  slice_from (String c s) (S n) = slice_from s n.
Proof. done. Qed.

(** [s[n:]] is what is left of [s] after its first [n] bytes. *)
Lemma slice_from_split (s : string) (n : nat) :
  (n ≤ String.length s)%nat →
  ∃ dropped, s = dropped +:+ slice_from s n ∧ String.length dropped = n.
Proof.
  revert s. induction n as [|n IH]; intros s Hn.
  - exists "". by rewrite slice_from_0, str_app_nil_l.
  - destruct s as [|c s]; simpl in Hn; [lia|].
    destruct (IH s) as (d & Hd & Hl); [lia|].
    exists (String c d). rewrite slice_from_S, str_app_cons, <- Hd.
    simpl. by rewrite Hl.
Qed.

Lemma slice_from_app (p s : string) : slice_from (p +:+ s) (String.length p) = s.
Proof.
  induction p as [|c p IH].
  - by rewrite str_app_nil_l, slice_from_0.
  - rewrite str_app_cons. simpl String.length. by rewrite slice_from_S.
Qed.

(** [strings.HasSuffix] holds exactly of the texts that end with the
    suffix. *)
Lemma strings_HasSuffix_spec (s suffix : string) :
  strings_HasSuffix s suffix = true ↔ ∃ p, s = p +:+ suffix.
Proof.
  unfold strings_HasSuffix. rewrite andb_true_iff, Nat.leb_le. split.
  - intros [Hlen Heq]. apply String.eqb_eq in Heq.
    destruct (slice_from_split s (String.length s - String.length suffix))
      as (d & Hd & _); [lia|].
    exists d. by rewrite <- Heq.
  - intros [p ->]. rewrite str_length_app. split; [lia|].
    replace (String.length p + String.length suffix - String.length suffix)%nat
      with (String.length p) by lia.
    rewrite slice_from_app. apply String.eqb_refl.
Qed.

(** The part of a log that is shown: the log when it has at most
    [maxLogSize] bytes, its last [maxLogSize] bytes otherwise. *)
Lemma log_tail (logContent : string) :
  let shown :=
    if maxLogSize <? len_string logContent
    then slice_from logContent (Z.to_nat (len_string logContent - maxLogSize))
    else logContent in
  ∃ dropped,
    logContent = dropped +:+ shown ∧
    len_string shown = Z.min (len_string logContent) 50000.
Proof.
  intros shown. subst shown. unfold maxLogSize.
  destruct (50000 <? len_string logContent) eqn:Hlen.
  - apply Z.ltb_lt in Hlen.
    destruct (slice_from_split logContent
                (Z.to_nat (len_string logContent - 50000)))
      as (d & Hd & Hl); [unfold len_string in *; lia|].
    exists d. split; [done|].
    apply (f_equal len_string) in Hd. unfold len_string in *.
    rewrite str_length_app in Hd. lia.
  - apply Z.ltb_ge in Hlen. exists "". rewrite str_app_nil_l. split; [done | lia].
Qed.

(** The line feed that closes the last line of a block, when it is
    missing. *)
Lemma close_last_line (sb shown : string) :
  ∃ body,
    (if negb (strings_HasSuffix shown nl) then (sb +:+ shown) +:+ nl
     else sb +:+ shown) = sb +:+ body ∧
    ends_with_nl body ∧
    (ends_with_nl shown ∧ body = shown ∨ ¬ ends_with_nl shown ∧ body = shown +:+ nl).
Proof.
  destruct (strings_HasSuffix shown nl) eqn:Hs; simpl.
  - apply strings_HasSuffix_spec in Hs. exists shown. split_and!; [done | done |].
    by left.
  - exists (shown +:+ nl). rewrite str_app_assoc. split_and!; [done | by exists shown |].
    right. split; [|done]. intros He.
    apply strings_HasSuffix_spec in He. congruence.
Qed.

Lemma fence_assoc (head x y body fence : string) :
  ((head +:+ (x +:+ y)) +:+ body) +:+ fence
  = head +:+ x +:+ y +:+ body +:+ fence.
Proof. by rewrite !str_app_assoc. Qed.

End Suffix.

Section PlanLogs.
Context `{GoTime}.

Lemma status_waiting (status : string) :
  status ∉ ["pending"; "queued"; "unreachable"] →
  String.eqb status "pending" || String.eqb status "queued"
  || String.eqb status "unreachable" = false.
Proof.
  rewrite !not_elem_of_cons. intros (H1 & H2 & H3 & _).
  apply String.eqb_neq in H1, H2, H3. by rewrite H1, H2, H3.
Qed.

(** X12. When the plan status is none of [pending], [queued] and
    [unreachable] and a non-empty log is read, [buildPlanMetadataResponse]
    ends with a fenced block: the opening fence, the last 50000 bytes of the
    log (all of it when it is shorter), a line feed unless the part shown
    ends with one, and the closing fence, which so starts a line. *)
Theorem buildPlanMetadataResponse_logs (run : Run.t) (plan : Plan.t)
    (tfeClient : Client.t) (logContent : string) :
  Plan.Status plan ∉ ["pending"; "queued"; "unreachable"] →
  Client.Plans_Logs tfeClient (Plan.ID plan) = ok (ok logContent) →
  logContent ≠ "" →
  ∃ head dropped shown body,
    buildPlanMetadataResponse run plan tfeClient
      = NewToolResultText (head +:+ "```" +:+ nl +:+ body +:+ "```" +:+ nl) ∧
    logContent = dropped +:+ shown ∧
    len_string shown = Z.min (len_string logContent) 50000 ∧
    ends_with_nl body ∧
    (ends_with_nl shown ∧ body = shown ∨ ¬ ends_with_nl shown ∧ body = shown +:+ nl).
Proof.
  intros Hstatus Hlogs Hne.
  unfold buildPlanMetadataResponse. cbv zeta.
  rewrite (status_waiting _ Hstatus), Hlogs.
  apply String.eqb_neq in Hne. rewrite Hne. cbn [negb].
  destruct (log_tail logContent) as (dropped & Hsplit & Hlen).
  match goal with
  | |- context [if negb (strings_HasSuffix ?shown nl)
                then (?sb +:+ ?shown) +:+ nl else _] =>
      destruct (close_last_line sb shown) as (body & -> & Hends & Hbody);
      match type of Hends with _ =>
        match sb with ?head +:+ _ => exists head, dropped, shown, body end
      end
  end.
  split_and!; [|done..].
  apply f_equal, fence_assoc.
Qed.

End PlanLogs.

Section PlanHandler.
Context `{GoLib} `{GoEnv}.

Lemma buildPlanMetadataResponse_text (run : Run.t) (plan : Plan.t)
    (tfeClient : Client.t) :
  ∃ text, buildPlanMetadataResponse run plan tfeClient = NewToolResultText text.
Proof.
  unfold buildPlanMetadataResponse. cbv zeta.
  destruct (_ || _); [by eexists|].
  destruct (Client.Plans_Logs _ _) as [[logBytes|]|]; by eexists.
Qed.

(** X13. [getPlanDetailsHandler] answers with a text exactly when the
    request has a [run_id], the client is available, the run is found and
    has a plan: a JSON plan that cannot be fetched, is empty or does not
    parse, and logs that cannot be fetched or read, are no errors. *)
Theorem getPlanDetailsHandler_result (ctx : outcome Client.t)
    (request : CallToolRequest.t) :
  (∃ text, getPlanDetailsHandler ctx request = NewToolResultText text) ↔
  ∃ runID tfeClient run plan,
    CallToolRequest.RequireString request "run_id" = ok runID ∧
    ctx = ok tfeClient ∧
    Client.Runs_ReadWithOptions tfeClient runID [RunPlan] = ok run ∧
    Run.Plan run = Some plan.
Proof.
  unfold getPlanDetailsHandler.
  destruct (CallToolRequest.RequireString request "run_id") as [runID|];
    [|split; [by intros [? ?] | by intros (? & ? & ? & ? & ? & _)]].
  destruct ctx as [tfeClient|];
    [|split; [by intros [? ?] | by intros (? & ? & ? & ? & _ & ? & _)]].
  destruct (Client.Runs_ReadWithOptions tfeClient runID [RunPlan]) as [run|] eqn:Hrun;
    [|split; [by intros [? ?] |
              intros (? & ? & ? & ? & [= <-] & [= <-] & ? & _); congruence]].
  destruct (Run.Plan run) as [plan|] eqn:Hplan;
    [|split; [by intros [? ?] |
              intros (? & ? & ? & ? & [= <-] & [= <-] & ? & ?); congruence]].
  split; [intros _; by exists runID, tfeClient, run, plan|]. intros _.
  destruct (Client.Plans_ReadJSONOutput _ _) as [jsonOutput|];
    [|apply buildPlanMetadataResponse_text].
  destruct (len_string jsonOutput =? 0); [apply buildPlanMetadataResponse_text|].
  destruct (json_Unmarshal_jsonPlan jsonOutput) as [parsed|];
    [|apply buildPlanMetadataResponse_text].
  unfold buildFormattedPlanResponse. by eexists.
Qed.

End PlanHandler.

(** ** The apply handler *)

Section ApplyLogs.
Context `{GoTime}.

(** X14. When the apply is found, its status is none of [pending],
    [queued] and [unreachable] and a non-empty log is read,
    [getApplyDetailsHandler] ends with a fenced block: the opening fence,
    the last 50000 bytes of the log (all of it when it is shorter), a line
    feed unless the part shown ends with one, and the closing fence. *)
Theorem getApplyDetailsHandler_logs (tfeClient : Client.t)
    (request : CallToolRequest.t) (runID : string) (run : Run.t)
    (apply : Apply.t) (logContent : string) :
  CallToolRequest.RequireString request "run_id" = ok runID →
  Client.Runs_ReadWithOptions tfeClient runID [RunApply] = ok run →
  Run.Apply run = Some apply →
  Apply.Status apply ∉ ["pending"; "queued"; "unreachable"] →
  Client.Applies_Logs tfeClient (Apply.ID apply) = ok (ok logContent) →
  logContent ≠ "" →
  ∃ head dropped shown body,
    getApplyDetailsHandler (ok tfeClient) request
      = NewToolResultText (head +:+ "```" +:+ nl +:+ body +:+ "```" +:+ nl) ∧
    logContent = dropped +:+ shown ∧
    len_string shown = Z.min (len_string logContent) 50000 ∧
    ends_with_nl body ∧
    (ends_with_nl shown ∧ body = shown ∨ ¬ ends_with_nl shown ∧ body = shown +:+ nl).
Proof.
  intros Hreq Hrun Happly Hstatus Hlogs Hne.
  unfold getApplyDetailsHandler. rewrite Hreq, Hrun, Happly. cbv zeta.
  rewrite (status_waiting _ Hstatus), Hlogs.
  apply String.eqb_neq in Hne. rewrite Hne.
  destruct (log_tail logContent) as (dropped & Hsplit & Hlen).
  match goal with
  | |- context [if negb (strings_HasSuffix ?shown nl)
                then (?sb +:+ ?shown) +:+ nl else _] =>
      destruct (close_last_line sb shown) as (body & -> & Hends & Hbody);
      match type of Hends with _ =>
        match sb with ?head +:+ _ => exists head, dropped, shown, body end
      end
  end.
  split_and!; [|done..].
  apply f_equal, fence_assoc.
Qed.


End ApplyLogs.

(** ** The current state *)

Section Outputs.
Context `{GoLib} `{GoStd}.

(** X16. [formatOutputValue] gives the same text for a decoded value under
    every iteration order of its maps; an object is rendered as a fenced
    block of its serialization, the [%v] fallback is not reached. *)
Theorem formatOutputValue_order_independent (v1 v2 : Value) :
  same_value v1 v2 → distinct_keys v1 = true → decoded v1 = true →
  formatOutputValue v1 = formatOutputValue v2 ∧
  (is_map v1 = true →
   ∃ jsonBytes, json_Marshal v1 = Some jsonBytes ∧
     formatOutputValue v1 = "```json" +:+ nl +:+ jsonBytes +:+ nl +:+ "```").
Proof.
  intros Hsame Hwf Hdec.
  pose proof (json_Marshal_same v1 v2 Hsame Hwf) as Hjson.
  destruct (json_Marshal_decoded v1 Hdec) as [j Hj].
  split.
  - inversion Hsame; subst; try done;
      unfold formatOutputValue; by rewrite <- Hjson, Hj.
  - destruct v1; try done. intros _. exists j. split; [done|].
    unfold formatOutputValue. by rewrite Hj.
Qed.

Lemma writeStateOutput_redact (sb : string) (output : StateVersionOutput.t) :
  writeStateOutput sb (redact output) = writeStateOutput sb output.
Proof.
  unfold writeStateOutput, redact.
  destruct (StateVersionOutput.Sensitive output) eqn:Hs; simpl; by rewrite ?Hs.
Qed.

Lemma foldl_writeStateOutput_redact (sb : string) (outputs : list StateVersionOutput.t) :
  foldl writeStateOutput sb (map redact outputs) = foldl writeStateOutput sb outputs.
Proof.
  revert sb. induction outputs as [|o outputs IH]; intros sb; [done|].
  simpl. by rewrite writeStateOutput_redact, IH.
Qed.

Lemma len_map {A B} (f : A → B) (l : list A) : len (map f l) = len l.
Proof. unfold len. by rewrite length_map. Qed.

End Outputs.

Section Sensitive.
Context `{GoLib} `{GoStd} `{GoEnv}.

Lemma let_congr {A B} (a b : A) (f g : A → B) :
  a = b → (∀ x, f x = g x) → (let x := a in f x) = (let x := b in g x).
Proof. intros -> Hfg. apply Hfg. Qed.

Lemma outcome_congr {A B} (o o' : outcome A) (k k' : A → B) (e e' : error → B) :
  o = o' → (∀ a, k a = k' a) → (∀ x, e x = e' x) →
  match o with ok a => k a | failed x => e x end
  = match o' with ok a => k' a | failed x => e' x end.
Proof. intros -> Hk He. destruct o'; [apply Hk | apply He]. Qed.

Lemma outcome_map_congr {A B} (o : outcome A) (h : A → A) (k k' : A → B)
    (e e' : error → B) :
  (∀ a, k (h a) = k' a) → (∀ x, e x = e' x) →
  match match o with ok a => ok (h a) | failed x => failed x end with
  | ok a => k a
  | failed x => e x
  end
  = match o with ok a => k' a | failed x => e' x end.
Proof. intros Hk He. destruct o; [apply Hk | apply He]. Qed.

Ltac let_step :=
  lazymatch goal with
  | |- (let x := ?a in @?f x) = (let y := ?b in @?g y) =>
      apply (let_congr a b f g); [try reflexivity | intros ?; cbv beta]
  end.

Ltac outcome_step :=
  lazymatch goal with
  | |- match ?o with ok a1 => @?k a1 | failed x1 => @?e x1 end
       = match ?o' with ok a2 => @?k' a2 | failed x2 => @?e' x2 end =>
      apply (outcome_congr o o' k k' e e');
      [try reflexivity | intros ?; cbv beta | intros ?; cbv beta; try reflexivity]
  end.

(** X17. The answer of [getCurrentStateHandler] does not depend on the
    value of any output that is marked sensitive, whether the outputs come
    with the state version or from the separate listing: blanking those
    values in what the client returns leaves the answer unchanged. *)
Theorem getCurrentStateHandler_sensitive (tfeClient : Client.t)
    (request : CallToolRequest.t) :
  getCurrentStateHandler (ok (redact_client tfeClient)) request
  = getCurrentStateHandler (ok tfeClient) request.
Proof.
  cbv beta delta [getCurrentStateHandler].
  outcome_step. let_step. outcome_step. let_step. let_step.
  cbv beta iota.
  outcome_step.
  lazymatch goal with
  | |- match Client.StateVersions_ReadCurrentWithOptions _ ?id with
       | ok a1 => @?k a1 | failed x1 => @?e x1 end
       = match ?o with ok a2 => @?k' a2 | failed x2 => @?e' x2 end =>
      change (Client.StateVersions_ReadCurrentWithOptions
                (redact_client tfeClient) id)
        with (match o with
              | ok sv => ok (redact_state sv)
              | failed err => failed err
              end);
      apply (outcome_map_congr o redact_state k k' e e');
      [intros sv; cbv beta | reflexivity]
  end.
  do 12 let_step.
  lazymatch goal with
  | |- (let x := ?a in @?f x) = (let y := ?b in @?g y) =>
      apply (let_congr a b f g); [|intros ?; cbv beta]
  end.
  - change (StateVersion.Outputs (redact_state sv))
      with (map redact (StateVersion.Outputs sv)).
    change (Client.StateVersions_ListOutputs (redact_client tfeClient)
              (StateVersion.ID (redact_state sv)))
      with (match Client.StateVersions_ListOutputs tfeClient (StateVersion.ID sv) with
            | ok (Some items) => ok (Some (map redact items))
            | other => other
            end).
    cbv zeta. rewrite len_map, foldl_writeStateOutput_redact.
    destruct (Client.StateVersions_ListOutputs tfeClient (StateVersion.ID sv))
      as [[items|]|]; try done.
    by rewrite len_map, foldl_writeStateOutput_redact.
  - let_step. reflexivity.
Qed.

End Sensitive.

Section StateResult.
Context `{GoLib} `{GoStd} `{GoEnv}.

(** One [let] of the goal, the outermost, replaced by its value. *)
Ltac zeta1 :=
  lazymatch goal with
  | |- context G [let x := ?a in @?f x] =>
      let g := context G [f a] in change g; cbv beta
  end.

(** X18. [getCurrentStateHandler] answers with a text exactly when the
    request has both names, the client is available, the workspace is found
    under the trimmed names and has a current state version: an output
    listing or a download that fails is no error. *)
Theorem getCurrentStateHandler_result (ctx : outcome Client.t)
    (request : CallToolRequest.t) :
  (∃ text, getCurrentStateHandler ctx request = NewToolResultText text) ↔
  ∃ org name tfeClient workspace sv,
    CallToolRequest.RequireString request "terraform_org_name" = ok org ∧
    CallToolRequest.RequireString request "workspace_name" = ok name ∧
    ctx = ok tfeClient ∧
    Client.Workspaces_Read tfeClient (strings_TrimSpace org)
      (strings_TrimSpace name) = ok workspace ∧
    Client.StateVersions_ReadCurrentWithOptions tfeClient (Workspace.ID workspace)
      = ok sv.
Proof.
  cbv beta delta [getCurrentStateHandler].
  destruct (CallToolRequest.RequireString request "terraform_org_name")
    as [org|];
    [|split; [by intros [? ?] | by intros (? & ? & ? & ? & ? & ? & _)]].
  zeta1.
  destruct (CallToolRequest.RequireString request "workspace_name")
    as [name|];
    [|split; [by intros [? ?] | by intros (? & ? & ? & ? & ? & _ & ? & _)]].
  zeta1. zeta1.
  destruct ctx as [tfeClient|];
    [|split; [by intros [? ?] | by intros (? & ? & ? & ? & ? & _ & _ & ? & _)]].
  destruct (Client.Workspaces_Read tfeClient (strings_TrimSpace org)
              (strings_TrimSpace name)) as [workspace|] eqn:Hws;
    [|split; [by intros [? ?] |
              intros (? & ? & ? & ? & ? & [= <-] & [= <-] & [= <-] & ? & _);
              congruence]].
  destruct (Client.StateVersions_ReadCurrentWithOptions tfeClient
              (Workspace.ID workspace)) as [sv|] eqn:Hsv;
    [|split; [by intros [? ?] |
              intros (? & ? & ? & ? & ? & [= <-] & [= <-] & [= <-] & ? & ?);
              congruence]].
  split; [intros _; by exists org, name, tfeClient, workspace, sv|].
  intros _. eexists. reflexivity.
Qed.

End StateResult.

(** ** Creating a workspace *)

Section CreateWorkspace.
Context `{GoTime} `{GoStd}.

(** The loop over tag names keeps no empty name. *)
Lemma tags_loop (f : string → string) (tagNames : list string) (acc : list Tag.t) :
  Forall (λ tag, Tag.Name tag ≠ "") acc →
  Forall (λ tag, Tag.Name tag ≠ "")
    (foldl (λ tags tagName,
              let tagName := f tagName in
              if negb (String.eqb tagName "")
              then tags ++ [{| Tag.Name := tagName |}]
              else tags) acc tagNames).
Proof.
  revert acc. induction tagNames as [|t tagNames IH]; intros acc Hacc; [done|].
  simpl. apply IH. destruct (String.eqb_spec (f t) ""); simpl; [done|].
  apply Forall_app. split; [done|]. by repeat constructor.
Qed.

Lemma optional_nonempty (s : string) :
  (if negb (String.eqb s "") then Some s else None) ≠ Some "".
Proof. destruct (String.eqb_spec s ""); simpl; congruence. Qed.

(** X19. When [createWorkspaceHandler] reaches [Workspaces.Create], the
    options it passes have no tag with an empty name, an execution mode that
    is unset or one of [local], [agent] and [remote], no empty description,
    version, directory or project, and a VCS repository only with a non-empty
    identifier and token; the client is the one of the context, the
    organization and the workspace name are those of the request with the
    white space around them trimmed, and the execution mode is unset exactly
    when the request gives none. *)
Theorem createWorkspaceRequest_valid (ctx : outcome Client.t)
    (request : CallToolRequest.t) (call : createCall) :
  createWorkspaceRequest ctx request = inr call →
  valid_options (call_options call) ∧
  ctx = ok (call_client call) ∧
  WorkspaceCreateOptions.Name (call_options call) = Some (call_workspace call) ∧
  (WorkspaceCreateOptions.ExecutionMode (call_options call) = None ↔
   CallToolRequest.GetString request "execution_mode" "" = "") ∧
  ∃ org name,
    CallToolRequest.RequireString request "terraform_org_name" = ok org ∧
    CallToolRequest.RequireString request "workspace_name" = ok name ∧
    call_org call = strings_TrimSpace org ∧
    call_workspace call = strings_TrimSpace name.
Proof.
  unfold createWorkspaceRequest.
  destruct (CallToolRequest.RequireString request "terraform_org_name")
    as [terraformOrgName|]; [|done].
  destruct (CallToolRequest.RequireString request "workspace_name")
    as [workspaceName|]; [|done].
  set (executionModeStr := CallToolRequest.GetString request "execution_mode" "").
  set (mode := strings_ToLower executionModeStr).
  set (identifier := CallToolRequest.GetString request "vcs_repo_identifier" "").
  set (token := CallToolRequest.GetString request "vcs_repo_oauth_token_id" "").
  match goal with
  | |- match ?sw with Some _ => _ | None => _ end = _ → _ =>
      destruct sw as [executionMode|] eqn:Hsw; [|done]
  end.
  assert (Hmode : executionMode = "local" ∨ executionMode = "agent"
                  ∨ executionMode = "remote").
  { destruct (String.eqb mode "local"); [injection Hsw as <-; auto|].
    destruct (String.eqb mode "agent"); [injection Hsw as <-; auto|].
    destruct (_ || _); [injection Hsw as <-; auto | done]. }
  clear Hsw.
  destruct ctx as [tfeClient|]; [|done].
  destruct (String.eqb_spec identifier "") as [Hi|Hi]; simpl;
    [|destruct (String.eqb_spec token "") as [Ht|Ht]; simpl; [done|]];
    intros [= <-]; simpl.
  all: assert (Hexec :
    (if negb (String.eqb executionModeStr "")
     then if String.eqb executionMode "local" then Some "local"
          else if String.eqb executionMode "agent" then Some "agent"
          else if String.eqb executionMode "remote" then Some "remote"
          else None
     else None)
    = if String.eqb executionModeStr "" then None else Some executionMode)
    by (destruct (String.eqb executionModeStr ""); simpl; [done|];
        by destruct Hmode as [-> | [-> | ->]]).
  all: rewrite Hexec; split_and!;
    [|done|done|destruct (String.eqb_spec executionModeStr ""); split; congruence
     |by exists terraformOrgName, workspaceName].
  all: unfold valid_options; simpl; split_and!;
    try apply optional_nonempty; try done.
  all: try (destruct (negb (String.eqb (CallToolRequest.GetString request "tags" "") ""));
            [apply (tags_loop strings_TrimSpace) |]; constructor).
  all: try (destruct (String.eqb executionModeStr "");
            destruct Hmode as [-> | [-> | ->]];
            rewrite !elem_of_cons; auto 10; fail).
  all: try (destruct (String.eqb_spec
                        (CallToolRequest.GetString request "project_id" "") "");
            simpl; congruence).
  exists identifier, token. split_and!; try done. apply optional_nonempty.
Qed.

End CreateWorkspace.

Section CreateResult.
Context `{GoStd} `{GoEnv}.

(** X20. [createWorkspaceHandler] answers with a text exactly when it
    reaches [Workspaces.Create], the call succeeds and
    [getWorkspaceDetailsForTools] succeeds on the workspace created; the
    text is the buffer of that helper. *)
Theorem createWorkspaceHandler_result (ctx : outcome Client.t)
    (request : CallToolRequest.t) (text : string) :
  createWorkspaceHandler ctx request = NewToolResultText text ↔
  ∃ call workspace deadlineExceeded,
    createWorkspaceRequest ctx request = inr call ∧
    Client.Workspaces_Create (call_client call) (call_org call) (call_options call)
      = (ok workspace, deadlineExceeded) ∧
    getWorkspaceDetailsForTools "create_workspace" (call_client call) workspace
      = ok text.
Proof.
  unfold createWorkspaceHandler.
  destruct (createWorkspaceRequest ctx request) as [result|call] eqn:Hreq.
  - split; [|by intros (? & ? & ? & ? & _)]. intros ->. exfalso.
    revert Hreq. unfold createWorkspaceRequest.
    repeat match goal with
      | |- context [match ?x with _ => _ end] => destruct x; try done
      end.
  - cbv zeta.
    destruct (Client.Workspaces_Create _ _ _) as [[workspace|err] d] eqn:Hcreate.
    + destruct (getWorkspaceDetailsForTools _ _ _) as [buf|] eqn:Hbuf.
      * split.
        -- intros [= <-]. by exists call, workspace, d.
        -- intros (? & ? & ? & [= <-] & Hc & Hb). congruence.
      * split; [done|]. intros (? & ? & ? & [= <-] & Hc & Hb). congruence.
    + split; [by destruct d|].
      intros (? & ? & ? & [= <-] & Hc & _). congruence.
Qed.

End CreateResult.

(** ** Witnesses of the theorems above, on the reference library *)

(** An update between [{a: 1, b: x}] and the same object in the other
    iteration order. *)
Lemma buildAttributeDiff_unchanged_witness :
  buildAttributeDiff (VMap [("a", num 1); ("b", VString "x")])
                     (VMap [("b", VString "x"); ("a", num 1)]) "update" = "".
Proof.
  apply buildAttributeDiff_unchanged; try done.
  apply same_map with [("b", VString "x"); ("a", num 1)];
    [apply Permutation_swap | repeat constructor].
Defined.

(** The map [{b: 1, a: 2}], yielded by [range] with [b] first. *)
Lemma writeDiff_from_empty_witness :
  let m := [("b", num 1); ("a", num 2)] in
  ∃ m', m' ≡ₚ m ∧ StronglySorted str_lt (map_keys m') ∧
        writeDiff "" [] m 0 = writeMapValues "" m' "+ " 0 ∧
        writeDiff "" m [] 0 = writeMapValues "" m' "- " 0.
Proof.
  intros m. apply (writeDiff_from_empty "" m 0).
  apply (bool_decide_unpack _). vm_compute. exact I.
Defined.

(** A plan with one [no-op] and one [read] record. *)
Lemma buildFormattedPlanResponse_unchanged_witness :
  let plan := {| Plan.ID := "plan-1"; Plan.Status := "finished";
                 Plan.HasChanges := false; Plan.ResourceAdditions := 0;
                 Plan.ResourceChanges := 0; Plan.ResourceDestructions := 0;
                 Plan.ResourceImports := 0 |} in
  let run := {| Run.ID := "run-1"; Run.Status := "planned";
                Run.Plan := Some plan; Run.Apply := None |} in
  let parsed := {| jsonPlan.FormatVersion := "1.2";
                   jsonPlan.TerraformVersion := "1.9.0";
                   jsonPlan.Applyable := false; jsonPlan.Complete := true;
                   jsonPlan.Errored := false;
                   jsonPlan.ResourceChanges :=
                     [record "a" ["no-op"] VNil VNil "";
                      record "b" ["read"] VNil VNil ""];
                   jsonPlan.OutputChanges := [];
                   jsonPlan.ResourceDrift := [] |} in
  ∃ head,
    buildFormattedPlanResponse run plan parsed
    = NewToolResultText
        (head +:+ nl +:+ "## Summary: 0 to add, 0 to change, 0 to destroy" +:+ nl
           +:+ nl +:+ "*(2 resources unchanged, not shown)*" +:+ nl).
Proof.
  intros plan run parsed.
  apply (buildFormattedPlanResponse_unchanged run plan parsed);
    [done | done | repeat constructor | reflexivity | reflexivity].
Defined.

(** An errored plan whose log is one line without a final line feed. *)
Lemma buildPlanMetadataResponse_logs_witness :
  let plan := {| Plan.ID := "plan-1"; Plan.Status := "errored";
                 Plan.HasChanges := false; Plan.ResourceAdditions := 0;
                 Plan.ResourceChanges := 0; Plan.ResourceDestructions := 0;
                 Plan.ResourceImports := 0 |} in
  let run := {| Run.ID := "run-1"; Run.Status := "errored";
                Run.Plan := Some plan; Run.Apply := None |} in
  let logContent := "Error: boom" in
  ∃ head dropped shown body,
    buildPlanMetadataResponse run plan (client_of_run run logContent)
      = NewToolResultText (head +:+ "```" +:+ nl +:+ body +:+ "```" +:+ nl) ∧
    logContent = dropped +:+ shown ∧
    len_string shown = Z.min (len_string logContent) 50000 ∧
    ends_with_nl body ∧
    (ends_with_nl shown ∧ body = shown ∨ ¬ ends_with_nl shown ∧ body = shown +:+ nl).
Proof.
  intros plan run logContent.
  apply (buildPlanMetadataResponse_logs run plan (client_of_run run logContent)
           logContent); [|reflexivity|done].
  apply (bool_decide_unpack _). vm_compute. exact I.
Defined.

(** A finished apply without timestamps whose log ends with a line feed. *)
Lemma getApplyDetailsHandler_logs_witness :
  let apply := {| Apply.ID := "apply-1"; Apply.Status := "finished";
                  Apply.ResourceAdditions := 1; Apply.ResourceChanges := 0;
                  Apply.ResourceDestructions := 0; Apply.ResourceImports := 0;
                  Apply.StatusTimestamps := None |} in
  let run := {| Run.ID := "run-1"; Run.Status := "applied";
                Run.Plan := None; Run.Apply := Some apply |} in
  let logContent := "Apply complete!" +:+ nl in
  ∃ head dropped shown body,
    getApplyDetailsHandler (ok (client_of_run run logContent))
      (request_of [("run_id", "run-1")])
      = NewToolResultText (head +:+ "```" +:+ nl +:+ body +:+ "```" +:+ nl) ∧
    logContent = dropped +:+ shown ∧
    len_string shown = Z.min (len_string logContent) 50000 ∧
    ends_with_nl body ∧
    (ends_with_nl shown ∧ body = shown ∨ ¬ ends_with_nl shown ∧ body = shown +:+ nl).
Proof.
  intros apply run logContent.
  apply (getApplyDetailsHandler_logs (client_of_run run logContent)
           (request_of [("run_id", "run-1")]) "run-1" run apply logContent);
    [reflexivity | reflexivity | reflexivity | | reflexivity | done].
  apply (bool_decide_unpack _). vm_compute. exact I.
Defined.

(** The output [{a: 1, b: x}] under its two iteration orders. *)
Lemma formatOutputValue_order_independent_witness :
  formatOutputValue (VMap [("a", num 1); ("b", VString "x")])
  = formatOutputValue (VMap [("b", VString "x"); ("a", num 1)]).
Proof.
  apply (formatOutputValue_order_independent
           (VMap [("a", num 1); ("b", VString "x")])
           (VMap [("b", VString "x"); ("a", num 1)])); try done.
  apply same_map with [("b", VString "x"); ("a", num 1)];
    [apply Permutation_swap | repeat constructor].
Defined.

(** A request with padded names, a mode in capitals and a tag list with an
    empty piece. *)
Lemma createWorkspaceRequest_valid_witness :
  let run := {| Run.ID := "run-1"; Run.Status := "applied";
                Run.Plan := None; Run.Apply := None |} in
  let tfeClient := client_of_run run "" in
  let request := request_of [("terraform_org_name", " acme ");
                             ("workspace_name", "app");
                             ("execution_mode", "Local");
                             ("tags", "blue, ,green")] in
  let options := {|
    WorkspaceCreateOptions.Name := Some "app";
    WorkspaceCreateOptions.AutoApply := Some false;
    WorkspaceCreateOptions.Tags := [{| Tag.Name := "blue" |}; {| Tag.Name := "green" |}];
    WorkspaceCreateOptions.SourceName := Some "terraform-mcp-server";
    WorkspaceCreateOptions.Description := None;
    WorkspaceCreateOptions.TerraformVersion := None;
    WorkspaceCreateOptions.WorkingDirectory := None;
    WorkspaceCreateOptions.Project := None;
    WorkspaceCreateOptions.ExecutionMode := Some "local";
    WorkspaceCreateOptions.VCSRepo := None |} in
  createWorkspaceRequest (ok tfeClient) request
  = inr {| call_client := tfeClient; call_org := "acme";
           call_workspace := "app"; call_options := options |} ∧
  valid_options options.
Proof.
  intros run tfeClient request options.
  assert (Hcall : createWorkspaceRequest (ok tfeClient) request
                  = inr {| call_client := tfeClient; call_org := "acme";
                           call_workspace := "app"; call_options := options |})
    by reflexivity.
  split; [exact Hcall|].
  exact (proj1 (createWorkspaceRequest_valid _ _ _ Hcall)).
Defined.
